(** * ok-err: Results as plain data

    A verification development for the two expressions of the Result
    algebra carried by the repository:

    - [MethodStyle]   : src/src/index.ts, classes [Ok] and [Err] with bound
                        operations, and the universal adapter [result];
    - [FunctionStyle] : src/unnamed/part_002, bare two-field records driven
                        by free functions, with [result] and [match].

    The library is dynamically typed where it matters (the adapter and the
    matcher inspect their operand with [typeof] and [in], the constructor
    [err] tests the truthiness of its second argument), so the embedding
    works over a universe of script values, and every operation of the
    library is the source function written in a small monad that threads
    the completion (normal return or throw) and the log of the calls made
    into foreign code.

    What the model leaves out: object identity (no operation of the library
    mutates an object, so an object is its contents and "the same instance"
    reads as equality); properties that are not data properties (accessors
    of the caller, proxies) and values that contain themselves; finite
    numbers that are not integers, big integers, sparse arrays; properties
    keyed by symbols other than the iterators; and the wording of the
    messages of the exceptions that the engine raises. *)

From stdpp Require Import gmap strings list fin_maps pretty.

#[local] Set Warnings "-register-all".
#[local] Open Scope string_scope.
#[local] Open Scope Z_scope.
#[local] Open Scope list_scope.

(** ** Values *)

(** The prototype an object inherits from.  [OkProto] and [ErrProto] are the
    prototypes of the two classes of src/src/index.ts; the others belong to
    the host. *)
Inductive proto :=
| ObjectProto
| OkProto
| ErrProto
| PromiseProto
| ErrorProto (name : string)
| ArrayProto.

(** The two files, and the two functions that each of them hands to the
    promise it is given: [ok], which [.then(ok)] registers, and the arrow
    function [(e) => errAny(e)], which [.catch] registers. *)
Inductive style :=
| Methods
| Functions.

Inductive library_fn :=
| OkOf (s : style)
| CatchOf (s : style).

(** Callables are references: a closure of the caller, a method that lives
    on a prototype, or one of the functions above. *)
Inductive fn_ref :=
| Closure (id : nat)
| Member (p : proto) (name : string)
| Library (f : library_fn).

(** The numbers that are not integers of [Z] and that the library can be
    given all the same. *)
Inductive irregular :=
| NaN
| Infinity
| NegInfinity
| NegZero.

(** [VNum n] is the integer [n].  The library never computes with the
    numbers it carries, so the finite numbers that are not integers would
    behave as the integers do; they are left out.
    An ordinary object is its prototype and its own enumerable properties;
    an exception object ([new Error(message)] and the like) has a name and
    a message and no enumerable property; the prototype objects are values
    too, as [__proto__] gives access to them.  An object whose prototype is
    [PromiseProto] is a promise.  An array is the list of its elements. *)
Inductive value :=
| VUndefined
| VNull
| VBool (b : bool)
| VNum (n : Z)
| VStr (s : string)
| VObj (p : proto) (fields : gmap string value)
| VError (name message : string)
| VProto (p : proto)
| VFun (f : fn_ref)
| VArr (items : list value)
| VIrregular (x : irregular).

#[global] Instance proto_eq_dec : EqDecision proto.
Proof. solve_decision. Defined.

#[global] Instance style_eq_dec : EqDecision style.
Proof. solve_decision. Defined.

#[global] Instance library_fn_eq_dec : EqDecision library_fn.
Proof. solve_decision. Defined.

#[global] Instance fn_ref_eq_dec : EqDecision fn_ref.
Proof. solve_decision. Defined.

(** ** Completions and the call log *)

Inductive completion (A : Type) :=
| Normal (a : A)
| Throw (e : value).
Arguments Normal {A} a.
Arguments Throw {A} e.

(** One entry per call that leaves the library: the callee, its receiver
    and its arguments. *)
Inductive event :=
| EvCall (f : fn_ref) (this : value) (args : list value).

(** What foreign code does when called.  It may depend on everything that
    was called before, so that closures with state are covered. *)
Definition host : Type :=
  list event → fn_ref → value → list value → completion value.

Definition M (A : Type) : Type := host → list event → completion A * list event.

#[global] Instance M_ret : MRet M := λ A a _ t, (Normal a, t).

#[global] Instance M_bind : MBind M := λ A B k m h t,
  match m h t with
  | (Normal a, t') => k a h t'
  | (Throw e, t') => (Throw e, t')
  end.

Definition throw {A} (e : value) : M A := λ _ t, (Throw e, t).

(** [try { body } catch (e) { handler e }] *)
Definition try_catch {A} (body : M A) (handler : value → M A) : M A := λ h t,
  match body h t with
  | (Normal a, t') => (Normal a, t')
  | (Throw e, t') => handler e h t'
  end.

(** A call into foreign code: logged, answered by the host. *)
Definition foreign (f : fn_ref) (this : value) (args : list value) : M value :=
  λ h t, (h t f this args, t ++ [EvCall f this args]).

(** ** The fragment of the language the library relies on *)

Definition TypeError (message : string) : value := VError "TypeError" message.

Definition ReferenceError (message : string) : value :=
  VError "ReferenceError" message.

Definition typeof (v : value) : string :=
  match v with
  | VUndefined => "undefined"
  | VNull => "object"
  | VBool _ => "boolean"
  | VNum _ => "number"
  | VStr _ => "string"
  | VObj _ _ | VError _ _ | VProto _ => "object"
  | VFun _ => "function"
  | VArr _ => "object"
  | VIrregular _ => "number"
  end.

Definition truthy (v : value) : bool :=
  match v with
  | VUndefined | VNull => false
  | VBool b => b
  | VNum n => negb (n =? 0)
  | VStr s => negb (String.eqb s "")
  | VObj _ _ | VError _ _ | VProto _ | VFun _ => true
  | VArr _ => true
  | VIrregular NaN | VIrregular NegZero => false
  | VIrregular Infinity | VIrregular NegInfinity => true
  end.

(** [v === null] *)
Definition is_null (v : value) : bool :=
  match v with VNull => true | _ => false end.

Definition proto_parent (p : proto) : option proto :=
  match p with
  | ObjectProto => None
  | OkProto | ErrProto | PromiseProto => Some ObjectProto
  | ErrorProto name =>
      if String.eqb name "Error" then Some ObjectProto else Some (ErrorProto "Error")
  | ArrayProto => Some ObjectProto
  end.

(** Own property names of each prototype object.  The two class prototypes
    list the members declared in src/src/index.ts; the prototype of arrays
    is the one of ECMAScript 2023. *)
Definition proto_members (p : proto) : list string :=
  match p with
  | ObjectProto =>
      ["constructor"; "__defineGetter__"; "__defineSetter__"; "hasOwnProperty";
       "__lookupGetter__"; "__lookupSetter__"; "isPrototypeOf";
       "propertyIsEnumerable"; "toString"; "valueOf"; "__proto__";
       "toLocaleString"]
  | OkProto =>
      ["constructor"; "raw"; "map"; "mapErr"; "flatMap"; "unwrap"; "or"]
  | ErrProto =>
      ["constructor"; "raw"; "annotate"; "map"; "mapErr"; "flatMap"; "unwrap"; "or"]
  | PromiseProto => ["constructor"; "then"; "catch"; "finally"]
  | ErrorProto name =>
      if String.eqb name "Error" then ["constructor"; "name"; "message"; "toString"]
      else ["constructor"; "name"; "message"]
  | ArrayProto =>
      ["length"; "constructor"; "at"; "concat"; "copyWithin"; "fill"; "find";
       "findIndex"; "findLast"; "findLastIndex"; "lastIndexOf"; "pop"; "push";
       "reverse"; "shift"; "unshift"; "slice"; "sort"; "splice"; "includes";
       "indexOf"; "join"; "keys"; "entries"; "values"; "forEach"; "filter";
       "flat"; "flatMap"; "map"; "every"; "some"; "reduce"; "reduceRight";
       "toLocaleString"; "toString"; "toReversed"; "toSorted"; "toSpliced"; "with"]
  end.

Definition has_member (p : proto) (k : string) : bool :=
  bool_decide (k ∈ proto_members p).

(** The prototype chain is at most three links long. *)
Definition proto_chain (p : proto) : list proto :=
  match proto_parent p with
  | None => [p]
  | Some q =>
      match proto_parent q with
      | None => [p; q]
      | Some r => [p; q; r]
      end
  end.

(** The first prototype of the chain that has [k] as an own property. *)
Definition find_member (p : proto) (k : string) : option proto :=
  head (filter (λ q, has_member q k = true) (proto_chain p)).

(** Objects of the universe, and where the search for a property that is
    not a data property of the value itself starts: at the prototype of an
    ordinary or exception object, at a prototype object itself for its own
    members. *)
Definition home (v : value) : option proto :=
  match v with
  | VObj p _ => Some p
  | VError name _ => Some (ErrorProto name)
  | VProto p => Some p
  | VArr _ => Some ArrayProto
  | _ => None
  end.

(** [Object.getPrototypeOf v] *)
Definition proto_of (v : value) : option proto :=
  match v with
  | VProto p => proto_parent p
  | _ => home v
  end.

(** The element of an array that key [k] names: [k] is the decimal
    writing of its index. *)
Definition array_element (items : list value) (k : string) : option value :=
  head (omap id (imap (λ i x, if String.eqb (pretty i) k then Some x else None) items)).

(** Own data properties, enumerable or not.  The message of an exception
    object is an own property that is not enumerable, and so is the length
    of an array. *)
Definition own_property (v : value) (k : string) : option value :=
  match v with
  | VObj _ fields => fields !! k
  | VError _ message => if String.eqb k "message" then Some (VStr message) else None
  | VArr items =>
      if String.eqb k "length" then Some (VNum (Z.of_nat (length items)))
      else array_element items k
  | _ => None
  end.

Definition own_or_undefined (v : value) (k : string) : value :=
  default VUndefined (own_property v k).

(** Reading member [k] found on prototype [q], for receiver [this].  The
    accessors are run: [__proto__] of the host, and the getter [raw] of the
    two classes (src/src/index.ts, lines 20-22 and 117-119), whose
    [this.value] and [this.error] are data reads since no prototype of the
    universe has a member of either name.  Every other member is a method,
    or the name and the default message of exception objects. *)
Definition member_value (q : proto) (k : string) (this : value) : value :=
  match q with
  | ObjectProto =>
      if String.eqb k "__proto__"
      then match proto_of this with Some p => VProto p | None => VNull end
      else VFun (Member q k)
  | OkProto =>
      if String.eqb k "raw"
      then VObj ObjectProto
             (<["value" := own_or_undefined this "value"]> {["ok" := VBool true]})
      else VFun (Member q k)
  | ErrProto =>
      if String.eqb k "raw"
      then VObj ObjectProto
             (<["error" := own_or_undefined this "error"]> {["ok" := VBool false]})
      else VFun (Member q k)
  | PromiseProto => VFun (Member q k)
  | ErrorProto name =>
      if String.eqb k "name" then VStr name
      else if String.eqb k "message" then VStr ""
      else VFun (Member q k)
  | ArrayProto =>
      if String.eqb k "length" then VNum 0 else VFun (Member q k)
  end.

(** [v[k]] and [v.k]: own properties first, then the prototype chain.
    Reading from [undefined] or [null] raises.  On a primitive or a
    callable the read gives [undefined]: exact for the keys the library
    reads from its operands ([ok], [value], [error]) and for [type] and
    [cause], which no built-in prototype defines; the members of the
    prototypes of primitives and callables are outside the model. *)
Definition get_property (v : value) (k : string) : M value :=
  match v with
  | VUndefined | VNull => throw (TypeError "Cannot read properties of undefined or null")
  | _ =>
      match own_property v k with
      | Some x => mret x
      | None =>
          match home v with
          | Some p =>
              match find_member p k with
              | Some q => mret (member_value q k v)
              | None => mret VUndefined
              end
          | None => mret VUndefined
          end
      end
  end.

(** [k in v].  The operator raises on anything that is not an object; a
    callable is an object too, its own keys and those of its prototype are
    outside the model and every use in the library is behind a [typeof]
    test that excludes callables. *)
Definition in_op (k : string) (v : value) : M bool :=
  match home v with
  | Some p => mret (bool_decide (is_Some (own_property v k)) || bool_decide (is_Some (find_member p k)))
  | None =>
      match v with
      | VFun _ => mret (bool_decide (is_Some (find_member ObjectProto k)))
      | _ => throw (TypeError "Cannot use 'in' operator to search for a key in a non-object")
      end
  end.

(** The characters of a string with their indices as keys: what spreading
    a string into an object literal copies. *)
Definition string_entries (s : string) : list (string * value) :=
  imap (λ i c, (pretty i, VStr (String c ""))) (String.list_ascii_of_string s).

(** [...v] inside an object literal: the own enumerable properties of [v],
    which for a string and for an array are its characters and its
    elements under their indices; nothing for [undefined], [null],
    numbers, booleans, callables, exception objects and prototype
    objects. *)
Definition spread (v : value) : gmap string value :=
  match v with
  | VObj _ fields => fields
  | VStr s => list_to_map (string_entries s)
  | VArr items => list_to_map (imap (λ i x, (pretty i, x)) items)
  | _ => ∅
  end.

(** A parameter with default [= {}]: the default applies when the argument
    is [undefined]. *)
Definition or_empty_object (v : value) : value :=
  match v with VUndefined => VObj ObjectProto ∅ | _ => v end.

(** The [i]-th argument of a call, [undefined] when it was not passed. *)
Definition arg (i : nat) (args : list value) : value :=
  default VUndefined (args !! i).

Definition is_library_proto (p : proto) : bool :=
  match p with OkProto | ErrProto => true | _ => false end.

(** A method of [Ok] or [Err] called without a receiver: class bodies are
    strict code, [this] is [undefined], so every method that reads
    [this.value] or [this.error] raises before it does anything else, the
    no-op branches return [this], and [Err.or] returns its argument.  A
    class constructor called without [new] raises.
    (See [detached_is_unbound] for the agreement with the methods.) *)
Definition detached (p : proto) (name : string) (args : list value) : M value :=
  let unreadable := throw (TypeError "Cannot read properties of undefined or null") in
  let no_new := throw (TypeError "Class constructor cannot be invoked without 'new'") in
  match p with
  | OkProto =>
      if String.eqb name "map" then unreadable
      else if String.eqb name "mapErr" then mret VUndefined
      else if String.eqb name "flatMap" then unreadable
      else if String.eqb name "unwrap" then unreadable
      else if String.eqb name "or" then unreadable
      else if String.eqb name "constructor" then no_new
      else throw (TypeError "not a function")
  | ErrProto =>
      if String.eqb name "annotate" then unreadable
      else if String.eqb name "map" then mret VUndefined
      else if String.eqb name "mapErr" then unreadable
      else if String.eqb name "flatMap" then mret VUndefined
      else if String.eqb name "unwrap" then unreadable
      else if String.eqb name "or" then mret (arg 0 args)
      else if String.eqb name "constructor" then no_new
      else throw (TypeError "not a function")
  | _ => throw (TypeError "not a function")
  end.

(** Reading an identifier that the file neither declares nor imports. *)
Definition undeclared {A} (name : string) : M A :=
  throw (ReferenceError (name +:+ " is not defined")).

(** The functions that the adapters hand to a promise, when they are
    called.  [ok] of each file wraps its argument (src/src/index.ts, line
    240; src/unnamed/part_002, lines 43-45).  The arrow function
    [(e) => errAny(e)] of src/src/index.ts wraps the rejection reason
    (lines 354 and 280); the one of src/unnamed/part_002 (line 140) reads
    [errAny], which that file neither declares nor imports.  None of them
    reads [this].
    (See [run_library_is_the_source] for the agreement with the two
    files.) *)
Definition run_library (f : library_fn) (args : list value) : M value :=
  match f with
  | OkOf Methods =>
      mret (VObj OkProto (<["value" := arg 0 args]> {["ok" := VBool true]}))
  | OkOf Functions =>
      mret (VObj ObjectProto (<["value" := arg 0 args]> {["ok" := VBool true]}))
  | CatchOf Methods =>
      mret (VObj ErrProto (<["error" := arg 0 args]> {["ok" := VBool false]}))
  | CatchOf Functions => undeclared "errAny"
  end.

(** [f(args)]: a plain call, without receiver. *)
Definition call_fn (f : value) (args : list value) : M value :=
  match f with
  | VFun (Closure id) => foreign (Closure id) VUndefined args
  | VFun (Member p name) =>
      if is_library_proto p then detached p name args
      else foreign (Member p name) VUndefined args
  | VFun (Library f) => run_library f args
  | _ => throw (TypeError "not a function")
  end.

(** What the adapter hands back: a Result at once; or the pending handle
    [Promise.resolve(work).then(ok).catch(e => errAny(e))] for a promise-like
    operand, left symbolic, where what it resolves to when [work] settles
    is given by [settled] in each style; or, for a promise that carries a
    [then] of its own, whatever that chain of calls returned (see
    [then_catch]). *)
Inductive adapted :=
| Now (r : value)
| Later (work : value)
| Chained (returned : value).

(** ** src/src/index.ts: the method-bearing style *)

Module MethodStyle.

(** [new Ok(value)]: the class field [ok] and the parameter property
    [value] become own properties. *)
Definition new_Ok (v : value) : value :=
  VObj OkProto (<["value" := v]> {["ok" := VBool true]}).

Definition new_Err (error : value) : value :=
  VObj ErrProto (<["error" := error]> {["ok" := VBool false]}).

(** *** class Ok *)

Definition Ok_raw (this : value) : M value :=
  v ← get_property this "value";
  mret (VObj ObjectProto (<["value" := v]> {["ok" := VBool true]})).

Definition Ok_map (this fn : value) : M value :=
  v ← get_property this "value";
  w ← call_fn fn [v];
  mret (new_Ok w).

Definition Ok_mapErr (this _fn : value) : M value :=
  mret this.

Definition Ok_flatMap (this fn : value) : M value :=
  v ← get_property this "value";
  call_fn fn [v].

Definition Ok_unwrap (this : value) : M value :=
  get_property this "value".

Definition Ok_or (this _fallback : value) : M value :=
  get_property this "value".

(** The generator [*[Symbol.iterator]() { yield this.value }], by the
    sequence of what it yields until it is done. *)
Definition Ok_iterator (this : value) : M (list value) :=
  v ← get_property this "value";
  mret [v].

(** *** class Err *)

Definition Err_raw (this : value) : M value :=
  e ← get_property this "error";
  mret (VObj ObjectProto (<["error" := e]> {["ok" := VBool false]})).

(** The object literal [{ type, ...payload, cause: this.error }] is built
    left to right: [type] first, then the copies of the payload's own
    properties, then [cause]; a later key replaces an earlier one. *)
Definition Err_annotate (this type payload : value) : M value :=
  let payload := or_empty_object payload in
  e ← get_property this "error";
  mret (new_Err (VObj ObjectProto
                   (<["cause" := e]> (spread payload ∪ {["type" := type]})))).

Definition Err_map (this _fn : value) : M value :=
  mret this.

Definition Err_mapErr (this fn : value) : M value :=
  e ← get_property this "error";
  w ← call_fn fn [e];
  mret (new_Err w).

Definition Err_flatMap (this _fn : value) : M value :=
  mret this.

Definition Err_unwrap (this : value) : M value :=
  e ← get_property this "error";
  throw e.

Definition Err_or (this fallback : value) : M value :=
  mret fallback.

Definition Err_iterator (this : value) : M (list value) :=
  mret [].

(** *** Method calls

    The dispatch of a method call needs the bodies above. *)

(** The body behind a method reference of one of the two classes, applied
    to a receiver. *)
Definition library_method (p : proto) (name : string) (this : value)
    (args : list value) : M value :=
  let no_new := throw (TypeError "Class constructor cannot be invoked without 'new'") in
  match p with
  | OkProto =>
      if String.eqb name "map" then Ok_map this (arg 0 args)
      else if String.eqb name "mapErr" then Ok_mapErr this (arg 0 args)
      else if String.eqb name "flatMap" then Ok_flatMap this (arg 0 args)
      else if String.eqb name "unwrap" then Ok_unwrap this
      else if String.eqb name "or" then Ok_or this (arg 0 args)
      else if String.eqb name "constructor" then no_new
      else throw (TypeError "not a function")
  | ErrProto =>
      if String.eqb name "annotate"
      then Err_annotate this (arg 0 args) (arg 1 args)
      else if String.eqb name "map" then Err_map this (arg 0 args)
      else if String.eqb name "mapErr" then Err_mapErr this (arg 0 args)
      else if String.eqb name "flatMap" then Err_flatMap this (arg 0 args)
      else if String.eqb name "unwrap" then Err_unwrap this
      else if String.eqb name "or" then Err_or this (arg 0 args)
      else if String.eqb name "constructor" then no_new
      else throw (TypeError "not a function")
  | _ => throw (TypeError "not a function")
  end.

(** [recv[k](args)]: the property is looked up on the receiver, own
    properties first and then the prototype chain, and what is found is
    called with the receiver as [this]. *)
Definition call_method (recv : value) (k : string) (args : list value) : M value :=
  f ← get_property recv k;
  match f with
  | VFun (Closure id) => foreign (Closure id) recv args
  | VFun (Member p name) =>
      if is_library_proto p then library_method p name recv args
      else foreign (Member p name) recv args
  | VFun (Library f) => run_library f args
  | _ => throw (TypeError "not a function")
  end.

(** [Promise.resolve(work)] is [work] itself when [work] is a promise whose
    [constructor] is the constructor of promises. *)
Definition hands_itself_back (work : value) : bool :=
  match work with
  | VObj PromiseProto fields =>
      match fields !! "constructor" with
      | None => true
      | Some (VFun (Member PromiseProto name)) => String.eqb name "constructor"
      | Some _ => false
      end
  | _ => false
  end.

(** [Promise.resolve(work).then(ok).catch((e) => errAny(e))], up to the
    point where the adapter returns.  Unless [work] is handed back and has
    a [then] of its own, the two methods called are the built-in ones, on
    [work] or on a fresh promise that follows it: they register the two
    functions and return the pending handle, and nothing of the caller runs
    before the adapter returns.  When [work] is handed back and has a
    [then] of its own, that [then] is what [.then(ok)] calls, at once, and
    [.catch] is looked up on what it returned. *)
Definition then_catch (s : style) (work : value) : M adapted :=
  if hands_itself_back work && bool_decide (is_Some (own_property work "then"))
  then
    x ← call_method work "then" [VFun (Library (OkOf s))];
    y ← call_method x "catch" [VFun (Library (CatchOf s))];
    mret (Chained y)
  else mret (Later work).

(** *** Constructors *)

Definition ok (v : value) : value := new_Ok v.

(** [err(type)(payload)], curried in the source. *)
Definition err (type payload : value) : value :=
  let payload := or_empty_object payload in
  new_Err (VObj ObjectProto (spread payload ∪ {["type" := type]})).

Definition errAny (e : value) : value := new_Err e.

(** *** Universal factory / wrapper / rehydrator *)

Definition isPromiseLike (v : value) : M bool :=
  if String.eqb (typeof v) "object" && negb (is_null v)
  then in_op "then" v
  else mret false.

Definition result (work : value) : M adapted :=
  shaped ← (if String.eqb (typeof work) "object" && negb (is_null work)
            then in_op "ok" work
            else mret false);
  if shaped : bool
  then
    o ← get_property work "ok";
    if truthy o
    then v ← get_property work "value"; mret (Now (new_Ok v))
    else e ← get_property work "error"; mret (Now (new_Err e))
  else
    promise ← isPromiseLike work;
    if promise : bool
    then then_catch Methods work
    else try_catch (v ← call_fn work []; mret (Now (ok v)))
                   (λ e, mret (Now (errAny e))).

(** What the pending handle resolves to once [work] has settled:
    fulfilment goes through [ok], rejection through [errAny]. *)
Definition settled (outcome : completion value) : value :=
  match outcome with
  | Normal v => ok v
  | Throw e => errAny e
  end.

End MethodStyle.

(** Method calls are the same in the whole development. *)
Abbreviation library_method := MethodStyle.library_method (only parsing).
Abbreviation call_method := MethodStyle.call_method (only parsing).
Abbreviation hands_itself_back := MethodStyle.hands_itself_back (only parsing).
Abbreviation then_catch := MethodStyle.then_catch (only parsing).

(** ** The iteration protocol and property keys *)

(** [[...v]]: the values [v] yields when it is consumed as a sequence.
    Strings yield their characters and arrays their elements, and the
    prototype of arrays is an empty array itself; the two classes define an
    iterator.  An ordinary object made to inherit from the prototype of
    arrays inherits the iterator of arrays, which is code of the host: the
    host is asked, and answers with the array of what is yielded.  Nothing
    else in the universe is iterable. *)
Definition iterate (v : value) : M (list value) :=
  match v with
  | VStr s => mret ((λ c, VStr (String c "")) <$> String.list_ascii_of_string s)
  | VArr items => mret items
  | VProto ArrayProto => mret []
  | _ =>
      match home v with
      | Some OkProto => MethodStyle.Ok_iterator v
      | Some ErrProto => MethodStyle.Err_iterator v
      | Some ArrayProto =>
          yielded ← foreign (Member ArrayProto "values") v [];
          match yielded with
          | VArr items => mret items
          | _ => throw (TypeError "not iterable")
          end
      | _ => throw (TypeError "not iterable")
      end
  end.

(** The writing of a number that is not an integer. *)
Definition irregular_to_string (x : irregular) : string :=
  match x with
  | NaN => "NaN"
  | Infinity => "Infinity"
  | NegInfinity => "-Infinity"
  | NegZero => "0"
  end.

(** The key a value denotes in [b[a]].  Exact on primitives; for objects
    and arrays these are the default conversions of the host. *)
Fixpoint to_property_key (a : value) : string :=
  match a with
  | VStr s => s
  | VNum n => pretty n
  | VIrregular x => irregular_to_string x
  | VBool true => "true"
  | VBool false => "false"
  | VUndefined => "undefined"
  | VNull => "null"
  | VProto ArrayProto => ""
  | VObj _ _ | VProto _ => "[object Object]"
  | VError name message =>
      if String.eqb message "" then name else name +:+ ": " +:+ message
  | VFun _ => "function () { [native code] }"
  | VArr items =>
      String.concat ","
        ((λ x, match x with
               | VUndefined | VNull => ""
               | _ => to_property_key x
               end) <$> items)
  end.

(** ** The wire *)

(** The document a JSON text denotes.  The order in which the members of
    an object are written in the text is not part of it. *)
Inductive json :=
| JNull
| JBool (b : bool)
| JNum (n : Z)
| JStr (s : string)
| JArr (elements : list json)
| JObj (members : gmap string json).

(** What [JSON.stringify] makes of a value: a text, given by the document
    it denotes; or nothing, the value being left out; or what a [toJSON]
    hook of the caller decides, which the model does not follow. *)
Inductive written :=
| Document (j : json)
| Nothing
| Hooked.

Definition is_hooked (w : written) : bool :=
  match w with Hooked => true | _ => false end.

(** A property whose value is not written is left out of its object; an
    element that is not written is written as [null]. *)
Definition member_of (w : written) : option json :=
  match w with Document j => Some j | _ => None end.

Definition element_of (w : written) : json :=
  match w with Document j => j | _ => JNull end.

(** An object with a callable [toJSON]: no prototype of the universe has
    one, so it is an own property. *)
Definition has_toJSON (fields : gmap string value) : bool :=
  match fields !! "toJSON" with
  | Some (VFun _) => true
  | _ => false
  end.

(** [JSON.stringify].  [undefined] and callables are not written; [NaN]
    and the infinities are written as [null], negative zero as [0].  Only
    own enumerable properties are written, so an exception object and a
    prototype object both come out as the empty object (the prototype of
    arrays, an array itself, as the empty array), and the prototype of an
    object is not recorded.  The values of the universe are finite
    trees without big integers, on which the host raises nothing of its
    own. *)
Fixpoint JSON_stringify (v : value) : written :=
  match v with
  | VUndefined | VFun _ => Nothing
  | VNull => Document JNull
  | VBool b => Document (JBool b)
  | VNum n => Document (JNum n)
  | VIrregular NegZero => Document (JNum 0)
  | VIrregular _ => Document JNull
  | VStr s => Document (JStr s)
  | VArr items =>
      let ws := JSON_stringify <$> items in
      if existsb is_hooked ws then Hooked else Document (JArr (element_of <$> ws))
  | VObj _ fields =>
      let ws := JSON_stringify <$> fields in
      if has_toJSON fields || map_fold (λ _ w acc, is_hooked w || acc) false ws
      then Hooked
      else Document (JObj (omap member_of ws))
  | VProto ArrayProto => Document (JArr [])
  | VError _ _ | VProto _ => Document (JObj ∅)
  end.

(** [JSON.parse]: every object is a plain one. *)
Fixpoint JSON_parse (j : json) : value :=
  match j with
  | JNull => VNull
  | JBool b => VBool b
  | JNum n => VNum n
  | JStr s => VStr s
  | JArr elements => VArr (JSON_parse <$> elements)
  | JObj members => VObj ObjectProto (JSON_parse <$> members)
  end.

(** Plain data: what the wire carries without loss.  Null, booleans, the
    integers, strings, and the arrays and plain objects all of whose
    elements and properties hold plain data.  Not [NaN], the infinities
    and negative zero, which come back as [null] and as [0]. *)
Fixpoint json_data (v : value) : bool :=
  match v with
  | VNull | VBool _ | VNum _ | VStr _ => true
  | VArr items => forallb json_data items
  | VObj p fields =>
      bool_decide (p = ObjectProto)
      && map_fold (λ _ (b : bool) acc, b && acc) true (json_data <$> fields)
  | VUndefined | VError _ _ | VProto _ | VFun _ | VIrregular _ => false
  end.

(** The number of constructors of a value, for inductions that go through
    the elements of an array and the properties of an object. *)
Fixpoint vsize (v : value) : nat :=
  match v with
  | VObj _ fields => S (map_fold (λ _ (n : nat) acc, (n + acc)%nat) 0%nat (vsize <$> fields))
  | VArr items => S (list_sum (vsize <$> items))
  | _ => 1%nat
  end.

(** ** src/unnamed/part_002: the free-function style *)

Module FunctionStyle.

Definition ok (v : value) : value :=
  VObj ObjectProto (<["value" := v]> {["ok" := VBool true]}).

Definition err (typeOrPayload payload : value) : value :=
  if truthy payload
  then VObj ObjectProto
         (<["error" := VObj ObjectProto
                         (spread payload ∪ {["type" := typeOrPayload]})]>
            {["ok" := VBool false]})
  else VObj ObjectProto (<["error" := typeOrPayload]> {["ok" := VBool false]}).

(** [errAny] is called at lines 89, 140 and 146 of this file, which
    neither declares nor imports it (the file has no import): it is an
    undeclared identifier.  A call evaluates its callee first, so each of
    the three calls raises a ReferenceError before its argument is
    evaluated. *)
Definition errAny : M value := undeclared "errAny".

Definition map (r fn : value) : M value :=
  o ← get_property r "ok";
  if truthy o
  then v ← get_property r "value"; w ← call_fn fn [v]; mret (ok w)
  else mret r.

Definition mapErr (r fn : value) : M value :=
  o ← get_property r "ok";
  if truthy o
  then mret r
  else
    callee ← errAny;
    e ← get_property r "error"; w ← call_fn fn [e]; call_fn callee [w].

Definition flatMap (r fn : value) : M value :=
  o ← get_property r "ok";
  if truthy o
  then v ← get_property r "value"; call_fn fn [v]
  else mret r.

Definition unwrap (r : value) : M value :=
  o ← get_property r "ok";
  if truthy o
  then get_property r "value"
  else e ← get_property r "error"; throw e.

Definition orElse (r fallback : value) : M value :=
  o ← get_property r "ok";
  if truthy o then get_property r "value" else mret fallback.

Definition annotate (r type payload : value) : M value :=
  let payload := or_empty_object payload in
  e ← get_property r "error";
  mret (VObj ObjectProto
          (<["error" := VObj ObjectProto
                          (<["cause" := e]> (spread payload ∪ {["type" := type]}))]>
             {["ok" := VBool false]})).

Definition isPromiseLike (v : value) : M bool :=
  if String.eqb (typeof v) "object" && negb (is_null v)
  then in_op "then" v
  else mret false.

Definition result (work : value) : M adapted :=
  promise ← isPromiseLike work;
  if promise : bool
  then then_catch Functions work
  else try_catch (v ← call_fn work []; mret (Now (ok v)))
                 (λ e, callee ← errAny; r ← call_fn callee [e]; mret (Now r)).

(** What the pending handle does once [work] has settled: fulfilment goes
    through [ok]; on a rejection the arrow function raises, and the handle
    is rejected with that exception. *)
Definition settled (outcome : completion value) : M value :=
  match outcome with
  | Normal v => mret (ok v)
  | Throw e => callee ← errAny; call_fn callee [e]
  end.

(** [match(a, b)] of the source ([match] is a keyword here). *)
Definition match_ (a b : value) : M value :=
  shaped ← (if String.eqb (typeof a) "object" && truthy a
            then in_op "ok" a
            else mret false);
  if shaped : bool
  then
    o ← get_property a "ok";
    if truthy o
    then v ← get_property a "value"; call_method b "ok" [v]
    else e ← get_property a "error"; call_method b "err" [e]
  else call_method b (to_property_key a) [].

End FunctionStyle.

(** ** A host for the examples

    The closures of the repository's tests and two built-ins of
    [Object.prototype] as they answer on an ordinary object:
    - closure 0 is [() => 1];
    - closure 1 is [() => { throw new Error("boom") }];
    - closure 2 is [double = (n) => n * 2];
    - closure 3 is [() => 2500];
    - closure 4 is [(n) => n > 0 ? ok(n) : err("Negative")] over records;
    - closure 5 is [(e) => e.type];
    - closure 6 is [() => 0]. *)
Definition sample_host : host := λ _ f this args,
  match f with
  | Closure 0 => Normal (VNum 1)
  | Closure 1 => Throw (VError "Error" "boom")
  | Closure 2 =>
      match arg 0 args with
      | VNum n => Normal (VNum (n * 2))
      | _ => Normal VUndefined
      end
  | Closure 3 => Normal (VNum 2500)
  | Closure 4 =>
      match arg 0 args with
      | VNum n =>
          if 0 <? n then Normal (FunctionStyle.ok (VNum n))
          else Normal (FunctionStyle.err (VStr "Negative") VUndefined)
      | _ => Normal VUndefined
      end
  | Closure 5 => Normal (own_or_undefined (arg 0 args) "type")
  | Closure 6 => Normal (VNum 0)
  | Member ObjectProto name =>
      if String.eqb name "toString" then Normal (VStr "[object Object]")
      else if String.eqb name "valueOf" then Normal this
      else Normal VUndefined
  | _ => Normal VUndefined
  end.

(** ** The invariant of a Result, and the operations composed

    The two shapes as the types of the source declare them
    (src/unnamed/part_002, lines 3-13): the discriminant is a boolean,
    [true] goes with an own [value] and no own [error], [false] with an own
    [error] and no own [value]. *)
Definition well_formed (r : value) : bool :=
  match r with
  | VObj _ fields =>
      match fields !! "ok" with
      | Some (VBool true) =>
          bool_decide (is_Some (fields !! "value"))
          && negb (bool_decide (is_Some (fields !! "error")))
      | Some (VBool false) =>
          bool_decide (is_Some (fields !! "error"))
          && negb (bool_decide (is_Some (fields !! "value")))
      | _ => false
      end
  | _ => false
  end.

(** One link of a chain of transformations, as a caller writes it. *)
Inductive step :=
| ThenMap (fn : value)
| ThenFlatMap (fn : value).

(** [r.map(f).flatMap(g)...] *)
Fixpoint method_chain (steps : list step) (r : value) : M value :=
  match steps with
  | [] => mret r
  | ThenMap fn :: rest => r' ← call_method r "map" [fn]; method_chain rest r'
  | ThenFlatMap fn :: rest => r' ← call_method r "flatMap" [fn]; method_chain rest r'
  end.

(** [flatMap(map(r, f), g)...] *)
Fixpoint function_chain (steps : list step) (r : value) : M value :=
  match steps with
  | [] => mret r
  | ThenMap fn :: rest => r' ← FunctionStyle.map r fn; function_chain rest r'
  | ThenFlatMap fn :: rest => r' ← FunctionStyle.flatMap r fn; function_chain rest r'
  end.

(** [r.annotate(t1, p1).annotate(t2, p2)...], innermost layer first. *)
Fixpoint annotate_all (layers : list (value * value)) (r : value) : M value :=
  match layers with
  | [] => mret r
  | (type, payload) :: rest =>
      r' ← MethodStyle.Err_annotate r type payload; annotate_all rest r'
  end.

(** The same with the free function [annotate]. *)
Fixpoint annotate_all_records (layers : list (value * value)) (r : value) : M value :=
  match layers with
  | [] => mret r
  | (type, payload) :: rest =>
      r' ← FunctionStyle.annotate r type payload; annotate_all_records rest r'
  end.

(** [e.cause.cause...], [n] links down the chain. *)
Fixpoint nth_cause (n : nat) (e : value) : M value :=
  match n with
  | O => mret e
  | S n' => c ← get_property e "cause"; nth_cause n' c
  end.

(** The sequences of several Results, one after the other. *)
Fixpoint values_of (results : list value) : M (list value) :=
  match results with
  | [] => mret []
  | r :: rest => vs ← iterate r; ws ← values_of rest; mret (vs ++ ws)
  end.

(** An outcome is a value or an error; the instance that carries it, and
    the values among a list of outcomes. *)
Definition instance_of (outcome : value + value) : value :=
  match outcome with
  | inl v => MethodStyle.ok v
  | inr e => MethodStyle.errAny e
  end.

Definition successes (outcomes : list (value + value)) : list value :=
  omap (λ outcome, match outcome with inl v => Some v | inr _ => None end) outcomes.

(** What the payload of a Result comes back as: its parse when it is
    written; [undefined] when it is not, the member being absent from the
    document that is read. *)
Definition over_the_wire (v : value) : value :=
  match JSON_stringify v with
  | Document j => JSON_parse j
  | Nothing | Hooked => VUndefined
  end.

(** What a Result can carry over the wire without loss: nothing at all, or
    plain data. *)
Definition survives_the_wire (payload : value) : bool :=
  match payload with
  | VUndefined => true
  | _ => json_data payload
  end.

(** A value that goes over the wire and comes back as it was. *)
Definition round_trips (x : value) : Prop :=
  ∃ j, JSON_stringify x = Document j ∧ JSON_parse j = x.

(** The wire shape of a Result as the documentation gives it: the
    discriminant under [ok] and the payload under [tag], which is [value]
    or [error]; a payload that writes nothing leaves the document with the
    discriminant alone. *)
Definition wire_shape (tag : string) (flag : bool) (payload : written)
    : gmap string json :=
  match payload with
  | Document j => <[tag := j]> {["ok" := JBool flag]}
  | Nothing | Hooked => {["ok" := JBool flag]}
  end.

(** * Properties *)

(** ** Reading the fields of a Result *)

(** A name that no prototype has is found on no chain. *)
Lemma find_member_absent (p : proto) (k : string) :
  (∀ q, has_member q k = false) → find_member p k = None.
Proof.
  intros Hno. unfold find_member.
  induction (proto_chain p) as [|q chain IH]; [reflexivity|].
  rewrite filter_cons. destruct (decide (has_member q k = true)) as [Hq|_].
  - rewrite Hno in Hq. discriminate Hq.
  - exact IH.
Qed.

Ltac absent_from_prototypes :=
  intros q; destruct q as [| | | |name|]; unfold has_member; simpl;
  try destruct (String.eqb name "Error"); vm_compute; reflexivity.

(** No prototype of the universe has a member called [ok], [value] or
    [error]: on an object these three keys are read from its own
    properties alone. *)
Lemma find_member_ok (p : proto) : find_member p "ok" = None.
Proof. apply find_member_absent. absent_from_prototypes. Qed.

Lemma find_member_value (p : proto) : find_member p "value" = None.
Proof. apply find_member_absent. absent_from_prototypes. Qed.

Lemma find_member_error (p : proto) : find_member p "error" = None.
Proof. apply find_member_absent. absent_from_prototypes. Qed.

Lemma get_ok (p : proto) (fields : gmap string value) :
  get_property (VObj p fields) "ok" = mret (default VUndefined (fields !! "ok")).
Proof.
  unfold get_property; simpl. destruct (fields !! "ok"); [reflexivity|].
  rewrite find_member_ok. reflexivity.
Qed.

Lemma get_value (p : proto) (fields : gmap string value) :
  get_property (VObj p fields) "value" = mret (default VUndefined (fields !! "value")).
Proof.
  unfold get_property; simpl. destruct (fields !! "value"); [reflexivity|].
  rewrite find_member_value. reflexivity.
Qed.

Lemma get_error (p : proto) (fields : gmap string value) :
  get_property (VObj p fields) "error" = mret (default VUndefined (fields !! "error")).
Proof.
  unfold get_property; simpl. destruct (fields !! "error"); [reflexivity|].
  rewrite find_member_error. reflexivity.
Qed.

(** The laws of the monad that the proofs step with. *)
Lemma M_bind_ret {A B} (a : A) (k : A → M B) : (mret a ≫= k) = k a.
Proof. reflexivity. Qed.

Lemma M_bind_throw {A B} (e : value) (k : A → M B) : (throw e ≫= k) = throw e.
Proof. reflexivity. Qed.

Lemma try_catch_ret {A} (a : A) (handler : value → M A) :
  try_catch (mret a) handler = mret a.
Proof. reflexivity. Qed.

Lemma try_catch_throw {A} (e : value) (handler : value → M A) :
  try_catch (throw e) handler = handler e.
Proof. reflexivity. Qed.

Lemma in_op_own (k : string) (p : proto) (fields : gmap string value) :
  is_Some (fields !! k) → in_op k (VObj p fields) = mret true.
Proof.
  intros Hk. unfold in_op; simpl. rewrite (bool_decide_eq_true_2 _ Hk). reflexivity.
Qed.

(** The getter [raw] as the prototype chain runs it is the getter of the
    class. *)
Lemma raw_getter_Ok (fields : gmap string value) :
  fields !! "raw" = None →
  get_property (VObj OkProto fields) "raw" = MethodStyle.Ok_raw (VObj OkProto fields).
Proof.
  intros Hraw. unfold MethodStyle.Ok_raw. rewrite get_value, M_bind_ret.
  unfold get_property; simpl. rewrite Hraw. reflexivity.
Qed.

Lemma raw_getter_Err (fields : gmap string value) :
  fields !! "raw" = None →
  get_property (VObj ErrProto fields) "raw" = MethodStyle.Err_raw (VObj ErrProto fields).
Proof.
  intros Hraw. unfold MethodStyle.Err_raw. rewrite get_error, M_bind_ret.
  unfold get_property; simpl. rewrite Hraw. reflexivity.
Qed.

(** A method of a class called without receiver behaves as its body does
    on [this = undefined]. *)
Lemma detached_is_unbound (p : proto) (name : string) (args : list value)
    (h : host) (t : list event) :
  is_library_proto p = true →
  detached p name args h t = library_method p name VUndefined args h t.
Proof.
  intros Hp. destruct p; try discriminate Hp; unfold detached, library_method.
  all: repeat (match goal with
               | |- context [String.eqb ?n ?s] => destruct (String.eqb n s)
               end; try reflexivity).
Qed.

(** The functions handed to a promise are the ones of the two files. *)
Lemma run_library_is_the_source (x : value) :
  run_library (OkOf Methods) [x] = mret (MethodStyle.ok x)
  ∧ run_library (OkOf Functions) [x] = mret (FunctionStyle.ok x)
  ∧ run_library (CatchOf Methods) [x] = mret (MethodStyle.errAny x)
  ∧ run_library (CatchOf Functions) [x]
    = (callee ← FunctionStyle.errAny; call_fn callee [x]).
Proof. repeat split; reflexivity. Qed.

(** ** The wire carries plain data without loss *)

Lemma all_true_fold (m : gmap string bool) :
  map_fold (λ _ (b : bool) acc, b && acc) true m = true
  ↔ map_Forall (λ _ b, b = true) m.
Proof.
  apply (map_fold_weak_ind
           (λ r m, r = true ↔ map_Forall (λ (_ : string) (b : bool), b = true) m)).
  - split; [intros _; apply map_Forall_empty | reflexivity].
  - intros k b m' r Hfresh IH.
    rewrite andb_true_iff, IH, map_Forall_insert by exact Hfresh. reflexivity.
Qed.

Lemma json_data_object (p : proto) (fields : gmap string value) :
  json_data (VObj p fields) = true
  ↔ p = ObjectProto ∧ ∀ k x, fields !! k = Some x → json_data x = true.
Proof.
  simpl. rewrite andb_true_iff, bool_decide_eq_true, all_true_fold.
  apply and_iff_compat_l. rewrite map_Forall_lookup. split.
  - intros Hall k x Hk. apply (Hall k). rewrite lookup_fmap, Hk. reflexivity.
  - intros Hall k b Hk. rewrite lookup_fmap in Hk.
    destruct (fields !! k) as [x|] eqn:Hx; [|discriminate Hk].
    injection Hk as <-. exact (Hall k x Hx).
Qed.

Lemma sum_fold_ge (m : gmap string nat) (k : string) (n : nat) :
  m !! k = Some n →
  (n ≤ map_fold (λ _ (n : nat) acc, (n + acc)%nat) 0%nat m)%nat.
Proof.
  intros Hk. rewrite (map_fold_delete_L _ _ k n m); [lia| |exact Hk].
  intros; lia.
Qed.

Lemma vsize_field (p : proto) (fields : gmap string value) (k : string) (x : value) :
  fields !! k = Some x → (vsize x < vsize (VObj p fields))%nat.
Proof.
  intros Hk. simpl. apply Nat.lt_succ_r, (sum_fold_ge _ k).
  rewrite lookup_fmap, Hk. reflexivity.
Qed.

Lemma vsize_element (items : list value) (x : value) :
  x ∈ items → (vsize x < vsize (VArr items))%nat.
Proof.
  intros Hx. simpl. apply Nat.lt_succ_r.
  induction Hx as [x rest|x y rest _ IH]; rewrite fmap_cons; simpl; lia.
Qed.

Lemma no_hook_fold (m : gmap string written) :
  map_fold (λ _ w acc, is_hooked w || acc) false m = false
  ↔ map_Forall (λ _ w, is_hooked w = false) m.
Proof.
  apply (map_fold_weak_ind
           (λ r m, r = false
                   ↔ map_Forall (λ (_ : string) (w : written), is_hooked w = false) m)).
  - split; [intros _; apply map_Forall_empty | reflexivity].
  - intros k w m' r Hfresh IH.
    rewrite orb_false_iff, IH, map_Forall_insert by exact Hfresh. reflexivity.
Qed.

Lemma wire_elements (items : list value) :
  Forall round_trips items →
  existsb is_hooked (JSON_stringify <$> items) = false
  ∧ JSON_parse <$> (element_of <$> (JSON_stringify <$> items)) = items.
Proof.
  induction 1 as [|x rest (j & Hj & Hback) _ [IHhook IHback]]; [split; reflexivity|].
  rewrite !fmap_cons, Hj. simpl. rewrite IHhook, Hback, IHback. split; reflexivity.
Qed.

Lemma wire_members (fields : gmap string value) :
  (∀ k x, fields !! k = Some x → round_trips x) →
  has_toJSON fields = false
  ∧ map_fold (λ _ w acc, is_hooked w || acc) false (JSON_stringify <$> fields) = false
  ∧ JSON_parse <$> omap member_of (JSON_stringify <$> fields) = fields.
Proof.
  intros Hfields. split; [|split].
  - unfold has_toJSON. destruct (fields !! "toJSON") as [x|] eqn:Hk; [|reflexivity].
    destruct (Hfields _ _ Hk) as (j & Hj & _). destruct x; try reflexivity.
    discriminate Hj.
  - apply no_hook_fold, map_Forall_lookup. intros k w Hk.
    rewrite lookup_fmap in Hk. destruct (fields !! k) as [x|] eqn:Hx; [|discriminate Hk].
    injection Hk as <-. destruct (Hfields _ _ Hx) as (j & -> & _). reflexivity.
  - apply map_eq. intros k. rewrite lookup_fmap, lookup_omap, lookup_fmap.
    destruct (fields !! k) as [x|] eqn:Hx; [|reflexivity]. simpl.
    destruct (Hfields _ _ Hx) as (j & -> & Hback). simpl. rewrite Hback. reflexivity.
Qed.

(** Writing plain data and reading it back gives the same data. *)
Lemma wire_fields_by_size (n : nat) :
  ∀ v, (vsize v < n)%nat → json_data v = true → round_trips v.
Proof.
  induction n as [|n IH]; intros v Hsize Hdata; [lia|].
  destruct v as [| |b|z|s|p fields|name message|p|f|items|x]; try discriminate Hdata.
  - exists JNull. split; reflexivity.
  - exists (JBool b). split; reflexivity.
  - exists (JNum z). split; reflexivity.
  - exists (JStr s). split; reflexivity.
  - apply json_data_object in Hdata as [-> Hfields].
    destruct (wire_members fields) as (Hhook & Hfold & Hback).
    { intros k x Hk. apply IH; [|exact (Hfields k x Hk)].
      pose proof (vsize_field ObjectProto fields k x Hk). lia. }
    eexists. split.
    + simpl. rewrite Hhook, Hfold. reflexivity.
    + simpl. rewrite Hback. reflexivity.
  - destruct (wire_elements items) as [Hhook Hback].
    { apply Forall_forall. intros x Hx. apply IH.
      - pose proof (vsize_element items x Hx). lia.
      - simpl in Hdata. rewrite forallb_forall in Hdata.
        apply Hdata, list_elem_of_In, Hx. }
    eexists. split.
    + simpl. rewrite Hhook. reflexivity.
    + simpl. rewrite Hback. reflexivity.
Qed.

Lemma JSON_round_trip (v : value) : json_data v = true → round_trips v.
Proof. apply (wire_fields_by_size (S (vsize v))). lia. Qed.

(** ** The universal adapter on a record that has an [ok] field *)

(** The first branch of [result] of src/src/index.ts, taken by every object
    with an own [ok] property. *)
Lemma result_of_record (p : proto) (fields : gmap string value) (o : value) :
  fields !! "ok" = Some o →
  MethodStyle.result (VObj p fields) =
    mret (Now (if truthy o
               then MethodStyle.new_Ok (default VUndefined (fields !! "value"))
               else MethodStyle.new_Err (default VUndefined (fields !! "error")))).
Proof.
  intros Hok. unfold MethodStyle.result.
  change (String.eqb (typeof (VObj p fields)) "object" && negb (is_null (VObj p fields)))
    with true; cbv iota.
  rewrite in_op_own by (rewrite Hok; eexists; reflexivity).
  rewrite M_bind_ret, get_ok, Hok, M_bind_ret.
  change (default VUndefined (Some o)) with o.
  destruct (truthy o).
  - rewrite get_value. reflexivity.
  - rewrite get_error. reflexivity.
Qed.




(** ** Serialize, deserialize, rehydrate *)

Lemma hook_fold_two (tag : string) (flag : bool) (w : written) :
  tag ≠ "ok" →
  map_fold (λ (_ : string) w acc, is_hooked w || acc) false
    (<[tag := w]> {["ok" := Document (JBool flag)]})
  = is_hooked w.
Proof.
  intros Htag. rewrite map_fold_insert_L.
  - rewrite map_fold_singleton. simpl. apply orb_false_r.
  - intros j1 j2 z1 z2 y _ _ _. destruct (is_hooked z1), (is_hooked z2); reflexivity.
  - apply lookup_singleton_ne. congruence.
Qed.

(** What [JSON.stringify] writes for a Result, of either class or plain. *)
Lemma wire_result (p : proto) (tag : string) (flag : bool) (payload : value) :
  tag ≠ "ok" → tag ≠ "toJSON" →
  JSON_stringify (VObj p (<[tag := payload]> {["ok" := VBool flag]}))
  = if is_hooked (JSON_stringify payload) then Hooked
    else Document (JObj (wire_shape tag flag (JSON_stringify payload))).
Proof.
  intros Htag Hhook. simpl.
  replace (has_toJSON (<[tag := payload]> {["ok" := VBool flag]})) with false.
  2:{ unfold has_toJSON. rewrite lookup_insert_ne by congruence.
      rewrite lookup_singleton_ne by discriminate. reflexivity. }
  rewrite fmap_insert, map_fmap_singleton.
  change (JSON_stringify (VBool flag)) with (Document (JBool flag)).
  rewrite (hook_fold_two tag flag _ Htag). simpl.
  destruct (JSON_stringify payload) as [j| |]; simpl; [| |reflexivity].
  - rewrite (omap_insert_Some _ _ _ _ j) by reflexivity.
    rewrite (omap_singleton_Some _ _ _ (JBool flag)) by reflexivity. reflexivity.
  - rewrite omap_insert_None by reflexivity.
    rewrite (omap_singleton_Some _ _ _ (JBool flag)) by reflexivity.
    rewrite delete_singleton_ne by congruence. reflexivity.
Qed.

(** Reading the document back and passing the record through the adapter. *)
Lemma wire_read_Ok (w : written) :
  MethodStyle.result (JSON_parse (JObj (wire_shape "value" true w)))
  = mret (Now (MethodStyle.ok
                 (match w with Document j => JSON_parse j | _ => VUndefined end))).
Proof.
  destruct w as [j| |]; simpl.
  - rewrite fmap_insert, map_fmap_singleton.
    rewrite (result_of_record _ _ (VBool true)) by reflexivity. reflexivity.
  - rewrite map_fmap_singleton.
    rewrite (result_of_record _ _ (VBool true)) by reflexivity. reflexivity.
  - rewrite map_fmap_singleton.
    rewrite (result_of_record _ _ (VBool true)) by reflexivity. reflexivity.
Qed.

Lemma wire_read_Err (w : written) :
  MethodStyle.result (JSON_parse (JObj (wire_shape "error" false w)))
  = mret (Now (MethodStyle.errAny
                 (match w with Document j => JSON_parse j | _ => VUndefined end))).
Proof.
  destruct w as [j| |]; simpl.
  - rewrite fmap_insert, map_fmap_singleton.
    rewrite (result_of_record _ _ (VBool false)) by reflexivity. reflexivity.
  - rewrite map_fmap_singleton.
    rewrite (result_of_record _ _ (VBool false)) by reflexivity. reflexivity.
  - rewrite map_fmap_singleton.
    rewrite (result_of_record _ _ (VBool false)) by reflexivity. reflexivity.
Qed.

(** A payload that survives the wire is [undefined], which writes nothing,
    or is written as a document that reads back as the payload. *)
Lemma survives_the_wire_cases (payload : value) :
  survives_the_wire payload = true →
  is_hooked (JSON_stringify payload) = false
  ∧ match JSON_stringify payload with Document j => JSON_parse j | _ => VUndefined end
    = payload.
Proof.
  intros Hdata.
  assert (payload = VUndefined ∨ json_data payload = true) as [->|Hjson]
    by (destruct payload; try (right; exact Hdata); left; reflexivity).
  - split; reflexivity.
  - destruct (JSON_round_trip payload Hjson) as (j & -> & Hback).
    split; [reflexivity | exact Hback].
Qed.




(** ** Annotation *)

(** The record [{ type, ...payload, cause: e }], key by key. *)
Lemma annotated_record (type e : value) (fields : gmap string value) (k : string) :
  (<["cause" := e]> (fields ∪ {["type" := type]}) : gmap string value) !! k
  = if decide (k = "cause") then Some e
    else match fields !! k with
         | Some x => Some x
         | None => if decide (k = "type") then Some type else None
         end.
Proof.
  destruct (decide (k = "cause")) as [->|Hcause].
  - apply lookup_insert_eq.
  - rewrite lookup_insert_ne by congruence. rewrite lookup_union.
    destruct (fields !! k) as [x|]; destruct (decide (k = "type")) as [->|Htype].
    + rewrite lookup_singleton_eq. reflexivity.
    + rewrite lookup_singleton_ne by congruence. reflexivity.
    + rewrite lookup_singleton_eq. reflexivity.
    + rewrite lookup_singleton_ne by congruence. reflexivity.
Qed.


(** ** Extraction *)

(** C4.  [unwrap] of a Success returns its value; [unwrap] of a Failure
    raises the stored error, the very value of the [error] field and not a
    wrapper around it; as a method of the classes, called through the
    receiver or directly, and as the free function over records. *)
Theorem unwrap_returns_value_or_raises_error (v e : value) (h : host) (t : list event) :
  MethodStyle.Ok_unwrap (MethodStyle.ok v) h t = (Normal v, t)
  ∧ MethodStyle.Err_unwrap (MethodStyle.errAny e) h t = (Throw e, t)
  ∧ call_method (MethodStyle.ok v) "unwrap" [] h t = (Normal v, t)
  ∧ call_method (MethodStyle.errAny e) "unwrap" [] h t = (Throw e, t)
  ∧ FunctionStyle.unwrap (FunctionStyle.ok v) h t = (Normal v, t)
  ∧ FunctionStyle.unwrap (FunctionStyle.err e VUndefined) h t = (Throw e, t).
Proof. repeat split; reflexivity. Qed.

(** ** The universal adapter on a callable *)

(** C5.  Given a callable, the adapter calls it at once, exactly once and
    with no argument: the call log grows by that single call.  In the
    method-bearing style a normal return [v] becomes the instance of [Ok]
    with [ok] true and [value] [v], and an exception [x] becomes the
    instance of [Err] with [ok] false and [error] [x], stored as it is; the
    adapter itself returns normally.  In the free-function style a normal
    return [v] becomes the plain record [{ok: true, value: v}]; but when the
    callable throws, the handler names [errAny], which src/unnamed/part_002
    neither declares nor imports, and the adapter raises a ReferenceError
    to its caller: no Failure is returned and [x] is lost. *)
Theorem result_captures_a_call (id : nat) (h : host) (t : list event) :
  let called := t ++ [EvCall (Closure id) VUndefined []] in
  MethodStyle.result (VFun (Closure id)) h t
  = (Normal (Now match h t (Closure id) VUndefined [] with
                 | Normal v => VObj OkProto (<["value" := v]> {["ok" := VBool true]})
                 | Throw x => VObj ErrProto (<["error" := x]> {["ok" := VBool false]})
                 end),
     called)
  ∧ FunctionStyle.result (VFun (Closure id)) h t
    = (match h t (Closure id) VUndefined [] with
       | Normal v =>
           Normal (Now (VObj ObjectProto (<["value" := v]> {["ok" := VBool true]})))
       | Throw x => Throw (ReferenceError "errAny is not defined")
       end,
       called).
Proof.
  split.
  - unfold MethodStyle.result, MethodStyle.isPromiseLike, try_catch, call_fn,
      foreign, mbind, M_bind; simpl.
    destruct (h t (Closure id) VUndefined []); reflexivity.
  - unfold FunctionStyle.result, FunctionStyle.isPromiseLike, try_catch, call_fn,
      foreign, mbind, M_bind; simpl.
    destruct (h t (Closure id) VUndefined []); reflexivity.
Qed.

(** ** Transformation and chaining *)

Lemma get_value_of_Ok (v : value) :
  get_property (MethodStyle.ok v) "value" = mret v.
Proof. reflexivity. Qed.

(** A call to a closure of the caller, then the rest. *)
Lemma call_closure_bind {B} (f : nat) (args : list value) (k : value → M B)
    (h : host) (t : list event) :
  (call_fn (VFun (Closure f)) args ≫= k) h t
  = match h t (Closure f) VUndefined args with
    | Normal w => k w h (t ++ [EvCall (Closure f) VUndefined args])
    | Throw x => (Throw x, t ++ [EvCall (Closure f) VUndefined args])
    end.
Proof. reflexivity. Qed.


(** C6.  [map] on a Success calls the function once, on the value, and
    wraps what it returns in a new Success; [map] on a Failure returns the
    Failure it was given, whatever the second argument is, and calls
    nothing: the call log is unchanged.  As a method, called through the
    receiver or directly, and as the free function. *)
Theorem map_transforms_success_only (v e fn : value) (f : nat) (h : host)
    (t : list event) :
  let transformed ok :=
    (match h t (Closure f) VUndefined [v] with
     | Normal w => Normal (ok w)
     | Throw x => Throw x
     end, t ++ [EvCall (Closure f) VUndefined [v]]) in
  MethodStyle.Ok_map (MethodStyle.ok v) (VFun (Closure f)) h t
  = transformed MethodStyle.ok
  ∧ call_method (MethodStyle.ok v) "map" [VFun (Closure f)] h t
    = transformed MethodStyle.ok
  ∧ FunctionStyle.map (FunctionStyle.ok v) (VFun (Closure f)) h t
    = transformed FunctionStyle.ok
  ∧ MethodStyle.Err_map (MethodStyle.errAny e) fn h t
    = (Normal (MethodStyle.errAny e), t)
  ∧ call_method (MethodStyle.errAny e) "map" [fn] h t
    = (Normal (MethodStyle.errAny e), t)
  ∧ FunctionStyle.map (FunctionStyle.err e VUndefined) fn h t
    = (Normal (FunctionStyle.err e VUndefined), t).
Proof.
  intros transformed. subst transformed.
  assert (Hmethod : MethodStyle.Ok_map (MethodStyle.ok v) (VFun (Closure f)) h t
                    = (match h t (Closure f) VUndefined [v] with
                       | Normal w => Normal (MethodStyle.ok w)
                       | Throw x => Throw x
                       end, t ++ [EvCall (Closure f) VUndefined [v]])).
  { unfold MethodStyle.Ok_map. rewrite get_value_of_Ok, M_bind_ret, call_closure_bind.
    destruct (h t (Closure f) VUndefined [v]); reflexivity. }
  split; [exact Hmethod|]. split; [exact Hmethod|]. split; [|repeat split; reflexivity].
  unfold FunctionStyle.map.
  change (get_property (FunctionStyle.ok v) "ok") with (mret (M := M) (VBool true)).
  rewrite M_bind_ret.
  change (get_property (FunctionStyle.ok v) "value") with (mret (M := M) v).
  rewrite M_bind_ret. change (truthy (VBool true)) with true. cbv iota.
  rewrite call_closure_bind.
  destruct (h t (Closure f) VUndefined [v]); reflexivity.
Qed.

(** C7.  [flatMap] on a Success calls the function once, on the value, and
    returns what the function returns, as it is; [flatMap] on a Failure
    returns the Failure it was given and calls nothing.  As a method,
    called through the receiver or directly, and as the free function. *)
Theorem flatMap_chains_success_only (v e fn : value) (f : nat) (h : host)
    (t : list event) :
  let chained :=
    (h t (Closure f) VUndefined [v], t ++ [EvCall (Closure f) VUndefined [v]]) in
  MethodStyle.Ok_flatMap (MethodStyle.ok v) (VFun (Closure f)) h t = chained
  ∧ call_method (MethodStyle.ok v) "flatMap" [VFun (Closure f)] h t = chained
  ∧ FunctionStyle.flatMap (FunctionStyle.ok v) (VFun (Closure f)) h t = chained
  ∧ MethodStyle.Err_flatMap (MethodStyle.errAny e) fn h t
    = (Normal (MethodStyle.errAny e), t)
  ∧ call_method (MethodStyle.errAny e) "flatMap" [fn] h t
    = (Normal (MethodStyle.errAny e), t)
  ∧ FunctionStyle.flatMap (FunctionStyle.err e VUndefined) fn h t
    = (Normal (FunctionStyle.err e VUndefined), t).
Proof. repeat split; reflexivity. Qed.

(** ** Matching on a discriminant *)

Lemma match_on_discriminant (d : string) (cases : value) :
  FunctionStyle.match_ (VStr d) cases = call_method cases d [].
Proof. reflexivity. Qed.

(** C8, as amended.  For a string discriminant [d] and a cases map that is
    a plain record: if the record has an own entry keyed [d] that is a
    closure, [match] calls that entry, with no argument, and returns what
    it returns; if the record has no own entry keyed [d] and [d] is not the
    name of a member that plain records inherit from their prototype,
    [match] raises a TypeError and calls nothing. *)
Theorem match_discriminant_lookup (d : string) (fields : gmap string value)
    (h : host) (t : list event) :
  let cases := VObj ObjectProto fields in
  (∀ id, fields !! d = Some (VFun (Closure id)) →
         FunctionStyle.match_ (VStr d) cases h t
         = (h t (Closure id) cases [], t ++ [EvCall (Closure id) cases []]))
  ∧ (fields !! d = None → has_member ObjectProto d = false →
     FunctionStyle.match_ (VStr d) cases h t = (Throw (TypeError "not a function"), t)).
Proof.
  intros cases. rewrite match_on_discriminant. split.
  - intros id Hentry. unfold call_method, get_property; simpl.
    rewrite Hentry. reflexivity.
  - intros Hmiss Hname. unfold call_method, get_property; simpl. rewrite Hmiss.
    unfold find_member, proto_chain; simpl. rewrite filter_cons.
    destruct (decide (has_member ObjectProto d = true)) as [Hd|_]; [|reflexivity].
    rewrite Hname in Hd. discriminate Hd.
Qed.

Lemma match_discriminant_lookup_witness :
  FunctionStyle.match_ (VStr "Timeout")
    (VObj ObjectProto {["Timeout" := VFun (Closure 3)]}) sample_host []
  = (Normal (VNum 2500),
     [EvCall (Closure 3) (VObj ObjectProto {["Timeout" := VFun (Closure 3)]}) []])
  ∧ FunctionStyle.match_ (VStr "Refused")
      (VObj ObjectProto {["Timeout" := VFun (Closure 3)]}) sample_host []
    = (Throw (TypeError "not a function"), []).
Proof.
  split.
  - exact (proj1 (match_discriminant_lookup "Timeout"
                    {["Timeout" := VFun (Closure 3)]} sample_host []) 3%nat eq_refl).
  - apply (proj2 (match_discriminant_lookup "Refused"
                    {["Timeout" := VFun (Closure 3)]} sample_host [])).
    + reflexivity.
    + reflexivity.
Defined.

(** C8, counterexample.  The cases map [{Timeout: () => 2500}] has no entry
    keyed ["toString"], yet matching on that discriminant raises nothing:
    the lookup finds the [toString] that every plain record inherits, calls
    it on the cases map, and returns its answer. *)
Lemma match_on_inherited_name_returns :
  ({["Timeout" := VFun (Closure 3)]} : gmap string value) !! "toString" = None
  ∧ FunctionStyle.match_ (VStr "toString")
      (VObj ObjectProto {["Timeout" := VFun (Closure 3)]}) sample_host []
    = (Normal (VStr "[object Object]"),
       [EvCall (Member ObjectProto "toString")
          (VObj ObjectProto {["Timeout" := VFun (Closure 3)]}) []]).
Proof. split; reflexivity. Qed.

(** ** The sequence view *)

(** C9, as amended.  In the method-bearing style, consuming a Success as a
    sequence yields its value and nothing else, and consuming a Failure
    yields nothing.  The free-function style has no sequence view: its
    Results are plain records, and a plain record is not iterable. *)
Theorem sequence_view_of_the_classes (v e : value) (fields : gmap string value)
    (h : host) (t : list event) :
  MethodStyle.Ok_iterator (MethodStyle.ok v) h t = (Normal [v], t)
  ∧ MethodStyle.Err_iterator (MethodStyle.errAny e) h t = (Normal [], t)
  ∧ iterate (MethodStyle.ok v) h t = (Normal [v], t)
  ∧ iterate (MethodStyle.errAny e) h t = (Normal [], t)
  ∧ iterate (VObj ObjectProto fields) h t = (Throw (TypeError "not iterable"), t).
Proof. repeat split; reflexivity. Qed.

(** C9, counterexample.  Consuming the Success record [ok(3)] of the
    free-function style as a sequence raises instead of yielding [3]. *)
Lemma function_style_ok_is_not_iterable :
  iterate (FunctionStyle.ok (VNum 3)) sample_host []
  = (Throw (TypeError "not iterable"), [])
  ∧ iterate (MethodStyle.ok (VNum 3)) sample_host [] = (Normal [VNum 3], []).
Proof. split; reflexivity. Qed.

(** ** The constructor [err] of the free-function style *)

(** The record [{ type, ...payload }], key by key. *)
Lemma typed_record (type : value) (fields : gmap string value) (k : string) :
  (fields ∪ {["type" := type]} : gmap string value) !! k
  = match fields !! k with
    | Some x => Some x
    | None => if decide (k = "type") then Some type else None
    end.
Proof.
  rewrite lookup_union.
  destruct (fields !! k) as [x|]; destruct (decide (k = "type")) as [->|Htype].
  - rewrite lookup_singleton_eq. reflexivity.
  - rewrite lookup_singleton_ne by congruence. reflexivity.
  - rewrite lookup_singleton_eq. reflexivity.
  - rewrite lookup_singleton_ne by congruence. reflexivity.
Qed.




(** ** The examples of the test suites and of the spec *)

Example test_result_sync_and_throw :
  MethodStyle.result (VFun (Closure 0)) sample_host []
  = (Normal (Now (MethodStyle.ok (VNum 1))), [EvCall (Closure 0) VUndefined []])
  ∧ MethodStyle.result (VFun (Closure 1)) sample_host []
    = (Normal (Now (MethodStyle.errAny (VError "Error" "boom"))),
       [EvCall (Closure 1) VUndefined []])
  ∧ FunctionStyle.result (VFun (Closure 0)) sample_host []
    = (Normal (Now (FunctionStyle.ok (VNum 1))), [EvCall (Closure 0) VUndefined []])
  ∧ FunctionStyle.result (VFun (Closure 1)) sample_host []
    = (Throw (ReferenceError "errAny is not defined"),
       [EvCall (Closure 1) VUndefined []]).
Proof. repeat split; reflexivity. Qed.

(** A promise-like operand gives a pending handle, in both styles, and the
    handle resolves to a Success or to a Failure. *)
Example test_result_promise :
  MethodStyle.result (VObj PromiseProto ∅) sample_host []
  = (Normal (Later (VObj PromiseProto ∅)), [])
  ∧ FunctionStyle.result (VObj PromiseProto ∅) sample_host []
    = (Normal (Later (VObj PromiseProto ∅)), [])
  ∧ MethodStyle.settled (Normal (VNum 1)) = MethodStyle.ok (VNum 1)
  ∧ MethodStyle.settled (Throw (VError "Error" "")) = MethodStyle.errAny (VError "Error" "")
  ∧ FunctionStyle.settled (Normal (VNum 1)) sample_host []
    = (Normal (FunctionStyle.ok (VNum 1)), [])
  ∧ FunctionStyle.settled (Throw (VError "Error" "")) sample_host []
    = (Throw (ReferenceError "errAny is not defined"), []).
Proof. repeat split; reflexivity. Qed.

(** [JSON.parse(JSON.stringify(ok(9)))] has lost its methods; [result]
    gives them back. *)
Example test_rehydrate :
  ∃ doc raw,
    JSON_stringify (MethodStyle.ok (VNum 9)) = Document doc
    ∧ JSON_parse doc = raw
    ∧ call_method raw "unwrap" [] sample_host []
      = (Throw (TypeError "not a function"), [])
    ∧ (live ← MethodStyle.result raw;
       match live with
       | Now r => call_method r "unwrap" []
       | Later _ | Chained _ => mret VUndefined
       end) sample_host []
      = (Normal (VNum 9), []).
Proof.
  eexists. eexists. split; [vm_compute; reflexivity|]. split; [reflexivity|].
  split; vm_compute; reflexivity.
Qed.

Example test_map_and_mapErr :
  FunctionStyle.map (FunctionStyle.ok (VNum 2)) (VFun (Closure 2)) sample_host []
  = (Normal (FunctionStyle.ok (VNum 4)), [EvCall (Closure 2) VUndefined [VNum 2]])
  ∧ FunctionStyle.map (FunctionStyle.err (VStr "E") VUndefined) (VFun (Closure 2))
      sample_host []
    = (Normal (FunctionStyle.err (VStr "E") VUndefined), [])
  ∧ call_method (MethodStyle.ok (VNum 1)) "mapErr" [VFun (Closure 0)] sample_host []
    = (Normal (MethodStyle.ok (VNum 1)), []).
Proof. repeat split; reflexivity. Qed.

Example test_flatMap :
  FunctionStyle.flatMap (FunctionStyle.ok (VNum 10)) (VFun (Closure 4)) sample_host []
  = (Normal (FunctionStyle.ok (VNum 10)), [EvCall (Closure 4) VUndefined [VNum 10]])
  ∧ FunctionStyle.flatMap (FunctionStyle.ok (VNum (-1))) (VFun (Closure 4)) sample_host []
    = (Normal (FunctionStyle.err (VStr "Negative") VUndefined),
       [EvCall (Closure 4) VUndefined [VNum (-1)]]).
Proof. split; reflexivity. Qed.

Example test_match_branches :
  let arms := VObj ObjectProto {["ok" := VFun (Closure 2); "err" := VFun (Closure 6)]} in
  let arms' := VObj ObjectProto {["ok" := VFun (Closure 2); "err" := VFun (Closure 5)]} in
  FunctionStyle.match_ (FunctionStyle.ok (VNum 5)) arms sample_host []
  = (Normal (VNum 10), [EvCall (Closure 2) arms [VNum 5]])
  ∧ fst (FunctionStyle.match_
           (FunctionStyle.err (VStr "Timeout") (VObj ObjectProto {["ms" := VNum 1000]}))
           arms' sample_host [])
    = Normal (VStr "Timeout").
Proof. split; vm_compute; reflexivity. Qed.

(** [err("InvalidId")({id: -1}).map(f).flatMap(g).or("Hi stranger!")]: the
    Failure goes through untouched, nothing is called. *)
Example test_scenario :
  (a ← call_method (MethodStyle.err (VStr "InvalidId") (VObj ObjectProto {["id" := VNum (-1)]}))
         "map" [VFun (Closure 2)];
   b ← call_method a "flatMap" [VFun (Closure 4)];
   call_method b "or" [VStr "Hi stranger!"]) sample_host []
  = (Normal (VStr "Hi stranger!"), []).
Proof. vm_compute. reflexivity. Qed.

(** * Further properties of the code *)

(** ** The adapter of src/src/index.ts on every operand *)

Lemma get_property_of_object (v : value) (k : string) (p : proto) :
  home v = Some p → ∃ x, get_property v k = mret x.
Proof.
  intros Hhome. destruct v; try discriminate Hhome; unfold get_property.
  all: destruct (own_property _ k); [eexists; reflexivity|]; rewrite Hhome.
  all: destruct (find_member p k); eexists; reflexivity.
Qed.

Lemma in_op_of_object (v : value) (k : string) (p : proto) :
  home v = Some p → ∃ b, in_op k v = mret b.
Proof. intros Hhome. unfold in_op. rewrite Hhome. eexists; reflexivity. Qed.

Lemma typeof_of_object (v : value) (p : proto) :
  home v = Some p → String.eqb (typeof v) "object" && negb (is_null v) = true.
Proof. intros Hhome. destruct v; try discriminate Hhome; reflexivity. Qed.

Lemma detached_makes_no_call (p : proto) (name : string) (args : list value)
    (h : host) (t : list event) :
  ∃ c, detached p name args h t = (c, t).
Proof.
  destruct p; unfold detached; try (eexists; reflexivity).
  all: repeat (match goal with
               | |- context [String.eqb ?n ?s] => destruct (String.eqb n s)
               end; try (eexists; reflexivity)).
Qed.

(** The chain [.then(ok).catch(...)]: either nothing of the caller runs and
    the pending handle is returned, or the operand is a promise with a
    [then] of its own, and what comes back is what the two calls made of
    it, never a Result at once. *)
Lemma then_catch_cases (s : style) (work : value) (h : host) (t : list event) :
  (hands_itself_back work && bool_decide (is_Some (own_property work "then")) = false
   ∧ then_catch s work h t = (Normal (Later work), t))
  ∨ (hands_itself_back work && bool_decide (is_Some (own_property work "then")) = true
     ∧ ∃ c t', then_catch s work h t = (c, t') ∧ ∀ r, c ≠ Normal (Now r)).
Proof.
  unfold MethodStyle.then_catch.
  destruct (hands_itself_back work && bool_decide (is_Some (own_property work "then")));
    [right | left]; (split; [reflexivity|]); [|reflexivity].
  unfold mbind, M_bind.
  destruct (call_method work "then" [VFun (Library (OkOf s))] h t) as [[x|e] t1].
  - destruct (call_method x "catch" [VFun (Library (CatchOf s))] h t1) as [[y|e] t2];
      do 2 eexists; (split; [reflexivity|]); intros r; discriminate.
  - do 2 eexists. split; [reflexivity|]. intros r; discriminate.
Qed.

Lemma run_library_makes_no_call (f : library_fn) (args : list value) (h : host)
    (t : list event) :
  ∃ c, run_library f args h t = (c, t).
Proof. destruct f as [[|]|[|]]; eexists; reflexivity. Qed.

(** What [result] does, operand by operand.  It returns normally with a
    fresh instance of one of the two classes, and the only call it can have
    made is the call of its operand without receiver and without argument;
    or it returns the pending handle of its operand and has called nothing;
    or its operand is a promise with a [then] of its own, and it has handed
    over to that. *)
Lemma result_cases (work : value) (h : host) (t : list event) :
  ∃ c t',
    MethodStyle.result work h t = (c, t')
    ∧ ((∃ x, c = Normal (Now (MethodStyle.new_Ok x))
             ∨ c = Normal (Now (MethodStyle.new_Err x)))
       ∧ (t' = t ∨ ∃ f, work = VFun f ∧ t' = t ++ [EvCall f VUndefined []])
       ∨ c = Normal (Later work) ∧ t' = t
       ∨ hands_itself_back work && bool_decide (is_Some (own_property work "then")) = true
         ∧ ∀ r, c ≠ Normal (Now r)).
Proof.
  destruct (home work) as [p|] eqn:Hhome.
  - (* objects *)
    unfold MethodStyle.result, MethodStyle.isPromiseLike.
    rewrite (typeof_of_object work p Hhome).
    destruct (in_op_of_object work "ok" p Hhome) as [shaped ->].
    rewrite M_bind_ret. destruct shaped.
    + destruct (get_property_of_object work "ok" p Hhome) as [o ->].
      rewrite M_bind_ret. destruct (truthy o).
      * destruct (get_property_of_object work "value" p Hhome) as [x ->].
        exists (Normal (Now (MethodStyle.new_Ok x))), t.
        split; [reflexivity|]. left.
        split; [exists x; left; reflexivity | left; reflexivity].
      * destruct (get_property_of_object work "error" p Hhome) as [x ->].
        exists (Normal (Now (MethodStyle.new_Err x))), t.
        split; [reflexivity|]. left.
        split; [exists x; right; reflexivity | left; reflexivity].
    + destruct (in_op_of_object work "then" p Hhome) as [promise ->].
      rewrite M_bind_ret. destruct promise.
      * destruct (then_catch_cases Methods work h t)
          as [[_ ->]|[Hown (c & t' & -> & Hlater)]].
        -- exists (Normal (Later work)), t. split; [reflexivity|].
           right; left. split; reflexivity.
        -- exists c, t'. split; [reflexivity|]. right; right. split; assumption.
      * exists (Normal (Now (MethodStyle.errAny (TypeError "not a function")))), t.
        split; [destruct work; try discriminate Hhome; reflexivity|]. left.
        split; [eexists; right; reflexivity | left; reflexivity].
  - destruct work as [| |b|n|s|p fields|name message|p|f|items|x];
      try discriminate Hhome.
    all: try (exists (Normal (Now (MethodStyle.errAny (TypeError "not a function")))), t;
              (split; [reflexivity|]); left;
              (split; [eexists; right; reflexivity | left; reflexivity])).
    change (MethodStyle.result (VFun f))
      with (try_catch (v ← call_fn (VFun f) []; mret (Now (MethodStyle.ok v)))
              (λ e, mret (Now (MethodStyle.errAny e)))).
    destruct f as [id|p name|lf]; [|destruct (is_library_proto p) eqn:Hlibrary|].
    + unfold try_catch. rewrite call_closure_bind.
      destruct (h t (Closure id) VUndefined []) as [v|e]; do 2 eexists.
      all: split; [reflexivity|]; left.
      all: split; [eexists; (left; reflexivity) || (right; reflexivity)|].
      all: right; eexists; split; reflexivity.
    + destruct (detached_makes_no_call p name [] h t) as [c Hc].
      unfold try_catch, call_fn, mbind, M_bind. rewrite Hlibrary, Hc.
      destruct c as [v|e]; do 2 eexists.
      all: split; [reflexivity|]; left.
      all: split; [eexists; (left; reflexivity) || (right; reflexivity)|].
      all: left; reflexivity.
    + unfold try_catch, call_fn, mbind, M_bind, foreign. rewrite Hlibrary.
      destruct (h t (Member p name) VUndefined []) as [v|e]; do 2 eexists.
      all: split; [reflexivity|]; left.
      all: split; [eexists; (left; reflexivity) || (right; reflexivity)|].
      all: right; eexists; split; reflexivity.
    + destruct (run_library_makes_no_call lf [] h t) as [c Hc].
      unfold try_catch, call_fn, mbind, M_bind. rewrite Hc.
      destruct c as [v|e]; do 2 eexists.
      all: split; [reflexivity|]; left.
      all: split; [eexists; (left; reflexivity) || (right; reflexivity)|].
      all: left; reflexivity.
Qed.

(** X1.  Whatever its operand is (a number, [null], a record, an array, a
    callable that throws), except a promise that carries a [then] of its
    own, the adapter of the method-bearing style returns normally: no
    exception leaves it.  It makes at most one call, the call of its
    operand.  The operands are the values of the universe: their properties
    are data properties, without accessors of the caller and without
    proxies. *)
Theorem result_never_throws (work : value) (h : host) (t : list event) :
  hands_itself_back work && bool_decide (is_Some (own_property work "then")) = false →
  ∃ a t',
    MethodStyle.result work h t = (Normal a, t')
    ∧ (t' = t ∨ ∃ f, work = VFun f ∧ t' = t ++ [EvCall f VUndefined []]).
Proof.
  intros Hplain.
  destruct (result_cases work h t)
    as (c & t' & Hrun & [[[x [->| ->]] Hlog]|[[-> ->]|[Hown _]]]).
  - eexists _, t'. split; [exact Hrun | exact Hlog].
  - eexists _, t'. split; [exact Hrun | exact Hlog].
  - eexists _, t. split; [exact Hrun | left; reflexivity].
  - rewrite Hown in Hplain. discriminate Hplain.
Qed.

Lemma result_never_throws_witness :
  hands_itself_back (VFun (Closure 1))
  && bool_decide (is_Some (own_property (VFun (Closure 1)) "then")) = false
  ∧ ∃ a t',
      MethodStyle.result (VFun (Closure 1)) sample_host [] = (Normal a, t')
      ∧ (t' = [] ∨ ∃ f, VFun (Closure 1) = VFun f ∧ t' = [] ++ [EvCall f VUndefined []]).
Proof.
  split; [reflexivity|].
  exact (result_never_throws (VFun (Closure 1)) sample_host [] eq_refl).
Defined.

Lemma well_formed_instances (x : value) :
  well_formed (MethodStyle.new_Ok x) = true ∧ well_formed (MethodStyle.new_Err x) = true.
Proof. split; reflexivity. Qed.



Lemma in_op_absent (k : string) (p : proto) (fields : gmap string value) :
  fields !! k = None → find_member p k = None → in_op k (VObj p fields) = mret false.
Proof.
  intros Hown Hchain. unfold in_op; simpl. rewrite Hown, Hchain. reflexivity.
Qed.

Lemma in_op_then (p : proto) (fields : gmap string value) :
  is_Some (fields !! "then") ∨ p = PromiseProto →
  in_op "then" (VObj p fields) = mret true.
Proof.
  intros [Hown| ->]; [apply in_op_own; exact Hown|].
  unfold in_op; simpl. rewrite orb_true_r. reflexivity.
Qed.

(** X3.  An object that has a [then] member, its own or the one that
    promises inherit, other than a promise that carries a [then] of its
    own, gets a pending handle and is not called when the adapter returns;
    in the method-bearing style this is so when the object has no [ok]
    member, in the free-function style always, a Result-shaped record with
    a [then] field included. *)
Theorem promise_like_gets_a_pending_handle (p : proto) (fields : gmap string value)
    (h : host) (t : list event) :
  is_Some (fields !! "then") ∨ p = PromiseProto →
  hands_itself_back (VObj p fields) && bool_decide (is_Some (fields !! "then")) = false →
  (fields !! "ok" = None →
   MethodStyle.result (VObj p fields) h t = (Normal (Later (VObj p fields)), t))
  ∧ FunctionStyle.result (VObj p fields) h t = (Normal (Later (VObj p fields)), t).
Proof.
  intros Hthen Hplain. split.
  - intros Hok. unfold MethodStyle.result, MethodStyle.isPromiseLike.
    change (String.eqb (typeof (VObj p fields)) "object" && negb (is_null (VObj p fields)))
      with true; cbv iota.
    rewrite (in_op_absent "ok" p fields Hok (find_member_ok p)), M_bind_ret.
    rewrite (in_op_then p fields Hthen), M_bind_ret.
    destruct (then_catch_cases Methods (VObj p fields) h t) as [[_ Hrun]|[Hown _]].
    + exact Hrun.
    + discriminate (eq_trans (eq_sym Hown) Hplain).
  - unfold FunctionStyle.result, FunctionStyle.isPromiseLike.
    change (String.eqb (typeof (VObj p fields)) "object" && negb (is_null (VObj p fields)))
      with true; cbv iota.
    rewrite (in_op_then p fields Hthen), M_bind_ret.
    destruct (then_catch_cases Functions (VObj p fields) h t) as [[_ Hrun]|[Hown _]].
    + exact Hrun.
    + discriminate (eq_trans (eq_sym Hown) Hplain).
Qed.

Lemma promise_like_gets_a_pending_handle_witness :
  (is_Some (({["then" := VFun (Closure 0)]} : gmap string value) !! "then")
   ∨ ObjectProto = PromiseProto)
  ∧ hands_itself_back (VObj ObjectProto {["then" := VFun (Closure 0)]})
    && bool_decide
         (is_Some (({["then" := VFun (Closure 0)]} : gmap string value) !! "then"))
    = false
  ∧ MethodStyle.result (VObj ObjectProto {["then" := VFun (Closure 0)]}) sample_host []
    = (Normal (Later (VObj ObjectProto {["then" := VFun (Closure 0)]})), [])
  ∧ FunctionStyle.result (VObj ObjectProto {["then" := VFun (Closure 0)]}) sample_host []
    = (Normal (Later (VObj ObjectProto {["then" := VFun (Closure 0)]})), []).
Proof.
  assert (Hthen : is_Some (({["then" := VFun (Closure 0)]} : gmap string value) !! "then")
                  ∨ ObjectProto = PromiseProto)
    by (left; eexists; reflexivity).
  split; [exact Hthen|]. split; [reflexivity|].
  destruct (promise_like_gets_a_pending_handle ObjectProto
              {["then" := VFun (Closure 0)]} sample_host [] Hthen eq_refl)
    as [Hmethod Hfunction].
  split; [apply Hmethod; reflexivity | exact Hfunction].
Defined.

(** A promise that carries a [then] of its own: [.then(ok)] calls it at
    once, with [ok], and here it throws. *)
Example test_result_promise_with_own_then :
  MethodStyle.result (VObj PromiseProto {["then" := VFun (Closure 1)]}) sample_host []
  = (Throw (VError "Error" "boom"),
     [EvCall (Closure 1) (VObj PromiseProto {["then" := VFun (Closure 1)]})
        [VFun (Library (OkOf Methods))]]).
Proof. reflexivity. Qed.

(** X4.  Rehydration is idempotent: what the adapter builds from a record
    that has an [ok] field is itself an operand that the adapter gives back
    as it is. *)
Theorem rehydration_is_idempotent (p : proto) (fields : gmap string value) (o : value)
    (h : host) (t : list event) :
  fields !! "ok" = Some o →
  ∃ r, MethodStyle.result (VObj p fields) h t = (Normal (Now r), t)
       ∧ MethodStyle.result r h t = (Normal (Now r), t).
Proof.
  intros Hok. rewrite (result_of_record p fields o Hok).
  destruct (truthy o); eexists; (split; [reflexivity|]).
  - unfold MethodStyle.new_Ok.
    rewrite (result_of_record OkProto _ (VBool true)) by reflexivity. reflexivity.
  - unfold MethodStyle.new_Err.
    rewrite (result_of_record ErrProto _ (VBool false)) by reflexivity. reflexivity.
Qed.

Lemma rehydration_is_idempotent_witness :
  ({["ok" := VBool false; "error" := VStr "E"]} : gmap string value) !! "ok"
  = Some (VBool false)
  ∧ ∃ r, MethodStyle.result (VObj ObjectProto {["ok" := VBool false; "error" := VStr "E"]})
           sample_host [] = (Normal (Now r), [])
         ∧ MethodStyle.result r sample_host [] = (Normal (Now r), []).
Proof.
  split; [reflexivity|].
  exact (rehydration_is_idempotent ObjectProto
           {["ok" := VBool false; "error" := VStr "E"]} (VBool false)
           sample_host [] eq_refl).
Defined.

(** X5.  The getter [raw] and the adapter are inverse to each other on the
    instances: [r.raw] is the plain record with the two fields of [r], and
    [result(r.raw)] is [r] again, for a Success and for a Failure and
    whatever the payload is. *)
Theorem raw_then_result_is_identity (v e : value) (h : host) (t : list event) :
  (raw ← get_property (MethodStyle.ok v) "raw";
   live ← MethodStyle.result raw; mret (raw, live)) h t
  = (Normal (VObj ObjectProto (<["value" := v]> {["ok" := VBool true]}),
             Now (MethodStyle.ok v)), t)
  ∧ (raw ← get_property (MethodStyle.errAny e) "raw";
     live ← MethodStyle.result raw; mret (raw, live)) h t
    = (Normal (VObj ObjectProto (<["error" := e]> {["ok" := VBool false]}),
               Now (MethodStyle.errAny e)), t).
Proof.
  repeat split; vm_compute; reflexivity.
Qed.

(** ** The wire, whatever the payload *)

(** X6.  When no [toJSON] hook of the caller is met inside the payload, a
    Result of the method-bearing style is written as a document, and
    reading it back and rehydrating it gives a Result of the same variant,
    whatever else the payload is: the discriminant never changes on the
    wire.  Its payload is what the payload alone becomes on the wire, which
    is [undefined] for a payload that is not written.  The payloads are the
    values of the universe: finite trees, without cycles and without big
    integers, on which serializing raises nothing. *)
Theorem wire_keeps_the_variant (payload : value) (h : host) (t : list event) :
  is_hooked (JSON_stringify payload) = false →
  (∃ doc, JSON_stringify (MethodStyle.ok payload) = Document doc
           ∧ MethodStyle.result (JSON_parse doc) h t
             = (Normal (Now (MethodStyle.ok (over_the_wire payload))), t))
  ∧ (∃ doc, JSON_stringify (MethodStyle.errAny payload) = Document doc
             ∧ MethodStyle.result (JSON_parse doc) h t
               = (Normal (Now (MethodStyle.errAny (over_the_wire payload))), t)).
Proof.
  intros Hplain. split.
  - eexists. split.
    + unfold MethodStyle.ok, MethodStyle.new_Ok.
      rewrite wire_result by discriminate. rewrite Hplain. reflexivity.
    + rewrite wire_read_Ok. unfold over_the_wire.
      destruct (JSON_stringify payload); reflexivity.
  - eexists. split.
    + unfold MethodStyle.errAny, MethodStyle.new_Err.
      rewrite wire_result by discriminate. rewrite Hplain. reflexivity.
    + rewrite wire_read_Err. unfold over_the_wire.
      destruct (JSON_stringify payload); reflexivity.
Qed.

Lemma wire_keeps_the_variant_witness :
  is_hooked (JSON_stringify (VArr [VIrregular NaN; VFun (Closure 0)])) = false
  ∧ over_the_wire (VArr [VIrregular NaN; VFun (Closure 0)]) = VArr [VNull; VNull]
  ∧ ∃ doc,
      JSON_stringify (MethodStyle.errAny (VArr [VIrregular NaN; VFun (Closure 0)]))
      = Document doc
      ∧ MethodStyle.result (JSON_parse doc) sample_host []
        = (Normal (Now (MethodStyle.errAny
                          (over_the_wire (VArr [VIrregular NaN; VFun (Closure 0)])))),
           []).
Proof.
  split; [reflexivity|]. split; [reflexivity|].
  exact (proj2 (wire_keeps_the_variant (VArr [VIrregular NaN; VFun (Closure 0)])
                  sample_host [] eq_refl)).
Defined.

(** ** The other combinators *)

Lemma Ok_map_run (v : value) (f : nat) (h : host) (t : list event) :
  MethodStyle.Ok_map (MethodStyle.new_Ok v) (VFun (Closure f)) h t
  = (match h t (Closure f) VUndefined [v] with
     | Normal w => Normal (MethodStyle.new_Ok w)
     | Throw x => Throw x
     end, t ++ [EvCall (Closure f) VUndefined [v]]).
Proof.
  unfold MethodStyle.Ok_map.
  change (get_property (MethodStyle.new_Ok v) "value") with (mret (M := M) v).
  rewrite M_bind_ret, call_closure_bind.
  destruct (h t (Closure f) VUndefined [v]); reflexivity.
Qed.

Lemma Err_mapErr_run (e : value) (f : nat) (h : host) (t : list event) :
  MethodStyle.Err_mapErr (MethodStyle.new_Err e) (VFun (Closure f)) h t
  = (match h t (Closure f) VUndefined [e] with
     | Normal w => Normal (MethodStyle.new_Err w)
     | Throw x => Throw x
     end, t ++ [EvCall (Closure f) VUndefined [e]]).
Proof.
  unfold MethodStyle.Err_mapErr.
  change (get_property (MethodStyle.new_Err e) "error") with (mret (M := M) e).
  rewrite M_bind_ret, call_closure_bind.
  destruct (h t (Closure f) VUndefined [e]); reflexivity.
Qed.

Lemma call_method_map_Ok (v fn : value) :
  call_method (MethodStyle.new_Ok v) "map" [fn]
  = MethodStyle.Ok_map (MethodStyle.new_Ok v) fn.
Proof. reflexivity. Qed.

Lemma call_method_mapErr_Err (e fn : value) :
  call_method (MethodStyle.new_Err e) "mapErr" [fn]
  = MethodStyle.Err_mapErr (MethodStyle.new_Err e) fn.
Proof. reflexivity. Qed.

Lemma call_method_map_Err (e fn : value) :
  call_method (MethodStyle.new_Err e) "map" [fn] = mret (MethodStyle.new_Err e).
Proof. reflexivity. Qed.

Lemma call_method_flatMap_Err (e fn : value) :
  call_method (MethodStyle.new_Err e) "flatMap" [fn] = mret (MethodStyle.new_Err e).
Proof. reflexivity. Qed.

Lemma call_method_mapErr_Ok (v fn : value) :
  call_method (MethodStyle.new_Ok v) "mapErr" [fn] = mret (MethodStyle.new_Ok v).
Proof. reflexivity. Qed.

(** X7.  In the method-bearing style [mapErr] is the dual of [map]: on a
    Failure it calls the function once, on the error, and wraps what it
    returns in a new Failure (an exception of the function is not
    captured); on a Success it returns the Success it was given and calls
    nothing.  The free function [mapErr] returns a Success as it was given
    and calls nothing; on a Failure it reads [errAny], which
    src/unnamed/part_002 neither declares nor imports, and raises a
    ReferenceError before the function is called. *)
Theorem mapErr_transforms_failure_only (v e fn : value) (f : nat) (h : host)
    (t : list event) :
  MethodStyle.Err_mapErr (MethodStyle.errAny e) (VFun (Closure f)) h t
  = (match h t (Closure f) VUndefined [e] with
     | Normal w => Normal (VObj ErrProto (<["error" := w]> {["ok" := VBool false]}))
     | Throw x => Throw x
     end, t ++ [EvCall (Closure f) VUndefined [e]])
  ∧ call_method (MethodStyle.errAny e) "mapErr" [VFun (Closure f)] h t
    = MethodStyle.Err_mapErr (MethodStyle.errAny e) (VFun (Closure f)) h t
  ∧ MethodStyle.Ok_mapErr (MethodStyle.ok v) fn h t
    = (Normal (VObj OkProto (<["value" := v]> {["ok" := VBool true]})), t)
  ∧ call_method (MethodStyle.ok v) "mapErr" [fn] h t
    = (Normal (VObj OkProto (<["value" := v]> {["ok" := VBool true]})), t)
  ∧ FunctionStyle.mapErr (VObj ObjectProto (<["value" := v]> {["ok" := VBool true]})) fn h t
    = (Normal (VObj ObjectProto (<["value" := v]> {["ok" := VBool true]})), t)
  ∧ FunctionStyle.mapErr (VObj ObjectProto (<["error" := e]> {["ok" := VBool false]})) fn h t
    = (Throw (ReferenceError "errAny is not defined"), t).
Proof.
  split; [|repeat split; reflexivity].
  unfold MethodStyle.errAny. rewrite Err_mapErr_run.
  destruct (h t (Closure f) VUndefined [e]); reflexivity.
Qed.

(** X8.  [map] and [mapErr] act on different variants, so their order does
    not matter: [r.map(f).mapErr(g)] and [r.mapErr(g).map(f)] make the same
    single call and give the same Result, or raise the same exception. *)
Theorem map_and_mapErr_commute (outcome : value + value) (f g : nat) (h : host)
    (t : list event) :
  (a ← call_method (instance_of outcome) "map" [VFun (Closure f)];
   call_method a "mapErr" [VFun (Closure g)]) h t
  = (a ← call_method (instance_of outcome) "mapErr" [VFun (Closure g)];
     call_method a "map" [VFun (Closure f)]) h t.
Proof.
  destruct outcome as [v|e]; unfold instance_of, MethodStyle.ok, MethodStyle.errAny.
  - rewrite call_method_mapErr_Ok, M_bind_ret, call_method_map_Ok.
    unfold mbind, M_bind. rewrite Ok_map_run.
    destruct (h t (Closure f) VUndefined [v]); reflexivity.
  - rewrite call_method_map_Err, M_bind_ret, call_method_mapErr_Err.
    unfold mbind, M_bind. rewrite Err_mapErr_run.
    destruct (h t (Closure g) VUndefined [e]); reflexivity.
Qed.

(** X9.  [map] composes: [r.map(f).map(g)] on a Success calls [f] on the
    value and then [g] on what [f] returned, in that order, and wraps the
    result; when [f] raises, [g] is not called and the exception of [f] is
    what the chain raises. *)
Theorem map_composes (v : value) (f g : nat) (h : host) (t : list event) :
  (a ← call_method (MethodStyle.ok v) "map" [VFun (Closure f)];
   call_method a "map" [VFun (Closure g)]) h t
  = match h t (Closure f) VUndefined [v] with
    | Normal w =>
        let t' := t ++ [EvCall (Closure f) VUndefined [v]] in
        (match h t' (Closure g) VUndefined [w] with
         | Normal u => Normal (MethodStyle.ok u)
         | Throw x => Throw x
         end, t' ++ [EvCall (Closure g) VUndefined [w]])
    | Throw x => (Throw x, t ++ [EvCall (Closure f) VUndefined [v]])
    end.
Proof.
  unfold MethodStyle.ok. rewrite call_method_map_Ok.
  unfold mbind, M_bind. rewrite Ok_map_run.
  destruct (h t (Closure f) VUndefined [v]) as [w|x]; [|reflexivity].
  rewrite call_method_map_Ok, Ok_map_run. reflexivity.
Qed.

(** X10.  A Failure goes through any chain of [map] and [flatMap] as it
    is, and no function of the chain is called, however long the chain is;
    in both styles. *)
Theorem failure_short_circuits_every_chain (steps : list step) (e : value)
    (h : host) (t : list event) :
  method_chain steps (MethodStyle.errAny e) h t = (Normal (MethodStyle.errAny e), t)
  ∧ function_chain steps (FunctionStyle.err e VUndefined) h t
    = (Normal (FunctionStyle.err e VUndefined), t).
Proof.
  split.
  - unfold MethodStyle.errAny.
    induction steps as [|[fn|fn] rest IH]; [reflexivity| |]; simpl.
    + rewrite call_method_map_Err, M_bind_ret. exact IH.
    + rewrite call_method_flatMap_Err, M_bind_ret. exact IH.
  - induction steps as [|[fn|fn] rest IH]; [reflexivity| |]; simpl.
    + change (FunctionStyle.map (FunctionStyle.err e VUndefined) fn)
        with (mret (M := M) (FunctionStyle.err e VUndefined)).
      rewrite M_bind_ret. exact IH.
    + change (FunctionStyle.flatMap (FunctionStyle.err e VUndefined) fn)
        with (mret (M := M) (FunctionStyle.err e VUndefined)).
      rewrite M_bind_ret. exact IH.
Qed.

(** ** Extraction with a fallback *)

(** X11.  [orElse] on any object that has an [ok] field returns normally
    and calls nothing: the [value] field when [ok] is truthy, the fallback
    otherwise; so do the methods [or] of the classes.  Given [undefined] or
    [null] in place of a Result, [orElse] raises instead of giving the
    fallback. *)
Theorem orElse_gives_value_or_fallback (p : proto) (fields : gmap string value)
    (o v e fallback : value) (h : host) (t : list event) :
  fields !! "ok" = Some o →
  FunctionStyle.orElse (VObj p fields) fallback h t
  = (Normal (if truthy o then default VUndefined (fields !! "value") else fallback), t)
  ∧ call_method (MethodStyle.ok v) "or" [fallback] h t = (Normal v, t)
  ∧ call_method (MethodStyle.errAny e) "or" [fallback] h t = (Normal fallback, t)
  ∧ (∃ x, FunctionStyle.orElse VUndefined fallback h t = (Throw x, t))
  ∧ (∃ x, FunctionStyle.orElse VNull fallback h t = (Throw x, t)).
Proof.
  intros Hok. split; [|repeat split; try reflexivity; eexists; reflexivity].
  unfold FunctionStyle.orElse. rewrite get_ok, Hok, M_bind_ret.
  change (default VUndefined (Some o)) with o.
  destruct (truthy o); [rewrite get_value|]; reflexivity.
Qed.

Lemma orElse_gives_value_or_fallback_witness :
  ({["ok" := VBool false; "error" := VStr "E"]} : gmap string value) !! "ok"
  = Some (VBool false)
  ∧ FunctionStyle.orElse (VObj ObjectProto {["ok" := VBool false; "error" := VStr "E"]})
      (VNum 7) sample_host []
    = (Normal (VNum 7), []).
Proof.
  split; [reflexivity|].
  exact (proj1 (orElse_gives_value_or_fallback ObjectProto
                  {["ok" := VBool false; "error" := VStr "E"]}
                  (VBool false) VNull VNull (VNum 7) sample_host [] eq_refl)).
Defined.

(** ** Matching on a Result *)

Lemma get_own (p : proto) (fields : gmap string value) (k : string) (x : value) :
  fields !! k = Some x → get_property (VObj p fields) k = mret x.
Proof. intros Hk. unfold get_property; simpl. rewrite Hk. reflexivity. Qed.

Lemma match_on_result (p : proto) (fields : gmap string value) (o : value)
    (cases : value) :
  fields !! "ok" = Some o →
  FunctionStyle.match_ (VObj p fields) cases
  = if truthy o
    then call_method cases "ok" [default VUndefined (fields !! "value")]
    else call_method cases "err" [default VUndefined (fields !! "error")].
Proof.
  intros Hok. unfold FunctionStyle.match_.
  change (String.eqb (typeof (VObj p fields)) "object" && truthy (VObj p fields))
    with true; cbv iota.
  rewrite in_op_own by (rewrite Hok; eexists; reflexivity).
  rewrite M_bind_ret, get_ok, Hok, M_bind_ret.
  change (default VUndefined (Some o)) with o.
  destruct (truthy o).
  - rewrite get_value, M_bind_ret. reflexivity.
  - rewrite get_error, M_bind_ret. reflexivity.
Qed.

(** X12.  [match(r, {ok: f, err: g})] on any object that has an [ok] field,
    a record of the free-function style or an instance of the classes
    alike: when [ok] is truthy it calls [f] on the [value] field and
    returns what [f] returns, otherwise it calls [g] on the [error] field;
    the arm is called with the arms record as receiver, and the other arm
    is not called. *)
Theorem match_dispatches_on_the_variant (p : proto) (fields arms : gmap string value)
    (o : value) (f g : nat) (h : host) (t : list event) :
  fields !! "ok" = Some o →
  arms !! "ok" = Some (VFun (Closure f)) →
  arms !! "err" = Some (VFun (Closure g)) →
  let cases := VObj ObjectProto arms in
  let chosen := if truthy o then Closure f else Closure g in
  let payload :=
    if truthy o then default VUndefined (fields !! "value")
    else default VUndefined (fields !! "error") in
  FunctionStyle.match_ (VObj p fields) cases h t
  = (h t chosen cases [payload], t ++ [EvCall chosen cases [payload]]).
Proof.
  intros Hok Hf Hg cases chosen payload. subst cases chosen payload.
  rewrite (match_on_result p fields o _ Hok). unfold call_method.
  destruct (truthy o).
  - rewrite (get_own _ _ _ _ Hf). reflexivity.
  - rewrite (get_own _ _ _ _ Hg). reflexivity.
Qed.

Lemma match_dispatches_on_the_variant_witness :
  FunctionStyle.match_ (MethodStyle.ok (VNum 5))
    (VObj ObjectProto {["ok" := VFun (Closure 2); "err" := VFun (Closure 6)]})
    sample_host []
  = (Normal (VNum 10),
     [EvCall (Closure 2)
        (VObj ObjectProto {["ok" := VFun (Closure 2); "err" := VFun (Closure 6)]})
        [VNum 5]]).
Proof.
  exact (match_dispatches_on_the_variant OkProto
           (<["value" := VNum 5]> {["ok" := VBool true]})
           {["ok" := VFun (Closure 2); "err" := VFun (Closure 6)]}
           (VBool true) 2 6 sample_host [] eq_refl eq_refl eq_refl).
Defined.

(** X13.  An arms record without the arm that the Result selects makes
    [match] raise a TypeError, and nothing is called; as long as the other
    variant comes, the missing arm goes unnoticed. *)
Theorem match_with_a_missing_arm (p : proto) (fields arms : gmap string value)
    (o : value) (f : nat) (h : host) (t : list event) :
  fields !! "ok" = Some o →
  arms !! "ok" = Some (VFun (Closure f)) →
  arms !! "err" = None →
  let cases := VObj ObjectProto arms in
  FunctionStyle.match_ (VObj p fields) cases h t
  = if truthy o
    then (h t (Closure f) cases [default VUndefined (fields !! "value")],
          t ++ [EvCall (Closure f) cases [default VUndefined (fields !! "value")]])
    else (Throw (TypeError "not a function"), t).
Proof.
  intros Hok Hf Hmissing cases. subst cases.
  rewrite (match_on_result p fields o _ Hok). unfold call_method.
  destruct (truthy o).
  - rewrite (get_own _ _ _ _ Hf). reflexivity.
  - unfold get_property; simpl. rewrite Hmissing. reflexivity.
Qed.

Lemma match_with_a_missing_arm_witness :
  FunctionStyle.match_ (FunctionStyle.err (VStr "E") VUndefined)
    (VObj ObjectProto {["ok" := VFun (Closure 2)]}) sample_host []
  = (Throw (TypeError "not a function"), []).
Proof.
  exact (match_with_a_missing_arm ObjectProto
           (<["error" := VStr "E"]> {["ok" := VBool false]})
           {["ok" := VFun (Closure 2)]}
           (VBool false) 2 sample_host [] eq_refl eq_refl eq_refl).
Defined.

(** ** Cause chains *)

Lemma get_property_pure (v : value) (k : string) :
  (∃ x, get_property v k = mret x) ∨ (∃ e, get_property v k = throw e).
Proof.
  destruct v; unfold get_property; try (right; eexists; reflexivity).
  all: destruct (own_property _ k); [left; eexists; reflexivity|].
  all: destruct (home _); [|left; eexists; reflexivity].
  all: destruct (find_member _ k); left; eexists; reflexivity.
Qed.

(** Reaching [y] in [n] links and reading its [cause] is reaching that
    cause in [n + 1] links. *)
Lemma nth_cause_one_more (n : nat) :
  ∀ (x y z : value) (h : host) (t : list event),
    nth_cause n x h t = (Normal y, t) →
    get_property y "cause" h t = (Normal z, t) →
    nth_cause (S n) x h t = (Normal z, t).
Proof.
  induction n as [|n IH]; intros x y z h t Hreach Hcause.
  - injection Hreach as ->. simpl. unfold mbind, M_bind. rewrite Hcause. reflexivity.
  - change (nth_cause (S n) x) with (c ← get_property x "cause"; nth_cause n c) in Hreach.
    change (nth_cause (S (S n)) x) with (c ← get_property x "cause"; nth_cause (S n) c).
    destruct (get_property_pure x "cause") as [[c Hc]|[e He]].
    + rewrite Hc, M_bind_ret in *. exact (IH c y z h t Hreach Hcause).
    + rewrite He in Hreach. discriminate Hreach.
Qed.

Lemma annotate_all_run (layers : list (value * value)) :
  ∀ (e : value) (h : host) (t : list event),
    ∃ top, annotate_all layers (MethodStyle.new_Err e) = mret (MethodStyle.new_Err top)
           ∧ nth_cause (length layers) top h t = (Normal e, t).
Proof.
  induction layers as [|[type payload] rest IH]; intros e h t.
  - exists e. split; reflexivity.
  - pose (wrapped := VObj ObjectProto
                       (<["cause" := e]> (spread (or_empty_object payload)
                                          ∪ {["type" := type]}))).
    destruct (IH wrapped h t) as (top & Hrun & Hreach).
    exists top. split.
    + change (annotate_all ((type, payload) :: rest) (MethodStyle.new_Err e))
        with (annotate_all rest (MethodStyle.new_Err wrapped)).
      exact Hrun.
    + apply (nth_cause_one_more _ _ wrapped); [exact Hreach|].
      unfold wrapped. rewrite (get_own _ _ "cause" e) by apply lookup_insert_eq.
      reflexivity.
Qed.

Lemma annotate_all_records_run (layers : list (value * value)) :
  ∀ (e : value) (h : host) (t : list event),
    ∃ top, annotate_all_records layers (FunctionStyle.err e VUndefined)
           = mret (FunctionStyle.err top VUndefined)
           ∧ nth_cause (length layers) top h t = (Normal e, t).
Proof.
  induction layers as [|[type payload] rest IH]; intros e h t.
  - exists e. split; reflexivity.
  - pose (wrapped := VObj ObjectProto
                       (<["cause" := e]> (spread (or_empty_object payload)
                                          ∪ {["type" := type]}))).
    destruct (IH wrapped h t) as (top & Hrun & Hreach).
    exists top. split.
    + change (annotate_all_records ((type, payload) :: rest) (FunctionStyle.err e VUndefined))
        with (annotate_all_records rest (FunctionStyle.err wrapped VUndefined)).
      exact Hrun.
    + apply (nth_cause_one_more _ _ wrapped); [exact Hreach|].
      unfold wrapped. rewrite (get_own _ _ "cause" e) by apply lookup_insert_eq.
      reflexivity.
Qed.

(** X14.  Annotating a Failure any number of times, with any types and any
    payloads (payloads that have a [cause] key of their own included),
    builds a chain in which the original error is found by following
    [cause] exactly as many times as there were annotations; nothing is
    called and nothing is raised on the way.  In both styles. *)
Theorem cause_chain_leads_to_the_origin (layers : list (value * value)) (e : value)
    (h : host) (t : list event) :
  (r ← annotate_all layers (MethodStyle.errAny e);
   top ← get_property r "error";
   nth_cause (length layers) top) h t = (Normal e, t)
  ∧ (r ← annotate_all_records layers (FunctionStyle.err e VUndefined);
     top ← get_property r "error";
     nth_cause (length layers) top) h t = (Normal e, t).
Proof.
  split.
  - destruct (annotate_all_run layers e h t) as (top & Hrun & Hreach).
    unfold MethodStyle.errAny. rewrite Hrun, M_bind_ret.
    change (get_property (MethodStyle.new_Err top) "error") with (mret (M := M) top).
    rewrite M_bind_ret. exact Hreach.
  - destruct (annotate_all_records_run layers e h t) as (top & Hrun & Hreach).
    rewrite Hrun, M_bind_ret.
    change (get_property (FunctionStyle.err top VUndefined) "error")
      with (mret (M := M) top).
    rewrite M_bind_ret. exact Hreach.
Qed.

(** ** Sequences of Results *)

(** X15.  Consuming a list of Results one after the other yields exactly
    the values of the Successes, in their order; the Failures contribute
    nothing and nothing is raised. *)
Theorem sequences_keep_the_successes (outcomes : list (value + value)) (h : host)
    (t : list event) :
  values_of (instance_of <$> outcomes) h t = (Normal (successes outcomes), t).
Proof.
  induction outcomes as [|[v|e] rest IH]; [reflexivity| |].
  - change (values_of (instance_of <$> inl v :: rest))
      with (ws ← values_of (instance_of <$> rest); mret ([v] ++ ws)).
    unfold mbind, M_bind. rewrite IH. reflexivity.
  - change (values_of (instance_of <$> inr e :: rest))
      with (ws ← values_of (instance_of <$> rest); mret ([] ++ ws)).
    unfold mbind, M_bind. rewrite IH. reflexivity.
Qed.

(** ** The two constructors [err] *)

(** X16.  With a payload record the two styles agree: the record that
    [err(type, payload)] of the free-function style builds is rehydrated by
    the adapter of the method-bearing style into the very instance that
    its curried [err(type)(payload)] builds.  So are the records of [ok]
    and of the one-argument [err] into the instances of [ok] and
    [errAny]. *)
Theorem styles_build_the_same_results (type v e : value) (p : proto)
    (fields : gmap string value) (h : host) (t : list event) :
  MethodStyle.result (FunctionStyle.err type (VObj p fields)) h t
  = (Normal (Now (MethodStyle.err type (VObj p fields))), t)
  ∧ MethodStyle.result (FunctionStyle.ok v) h t = (Normal (Now (MethodStyle.ok v)), t)
  ∧ MethodStyle.result (FunctionStyle.err e VUndefined) h t
    = (Normal (Now (MethodStyle.errAny e)), t).
Proof. repeat split; reflexivity. Qed.

(** X17.  The discriminant is not protected: when the payload has a key
    [type] of its own, that value is the [type] of the error and the
    discriminant given to [err] or to [annotate] is lost, in both
    styles. *)
Theorem payload_type_replaces_the_discriminant (type own prior : value) (p : proto)
    (fields : gmap string value) (h : host) (t : list event) :
  fields !! "type" = Some own →
  let read_type r := error ← get_property r "error"; get_property error "type" in
  read_type (MethodStyle.err type (VObj p fields)) h t = (Normal own, t)
  ∧ read_type (FunctionStyle.err type (VObj p fields)) h t = (Normal own, t)
  ∧ (r ← MethodStyle.Err_annotate (MethodStyle.errAny prior) type (VObj p fields);
     read_type r) h t = (Normal own, t)
  ∧ (r ← FunctionStyle.annotate (FunctionStyle.err prior VUndefined) type (VObj p fields);
     read_type r) h t = (Normal own, t).
Proof.
  intros Hown read_type. subst read_type.
  assert (Hplain : (fields ∪ {["type" := type]} : gmap string value) !! "type" = Some own)
    by (rewrite typed_record, Hown; reflexivity).
  assert (Hcaused : (<["cause" := prior]> (fields ∪ {["type" := type]})
                     : gmap string value) !! "type" = Some own)
    by (rewrite annotated_record, Hown; reflexivity).
  repeat split.
  - change (get_property (MethodStyle.err type (VObj p fields)) "error")
      with (mret (M := M) (VObj ObjectProto (fields ∪ {["type" := type]}))).
    rewrite M_bind_ret, (get_own _ _ _ _ Hplain). reflexivity.
  - change (get_property (FunctionStyle.err type (VObj p fields)) "error")
      with (mret (M := M) (VObj ObjectProto (fields ∪ {["type" := type]}))).
    rewrite M_bind_ret, (get_own _ _ _ _ Hplain). reflexivity.
  - change (MethodStyle.Err_annotate (MethodStyle.errAny prior) type (VObj p fields))
      with (mret (M := M) (MethodStyle.new_Err
                             (VObj ObjectProto
                                (<["cause" := prior]> (fields ∪ {["type" := type]}))))).
    rewrite M_bind_ret.
    change (get_property (MethodStyle.new_Err ?x) "error") with (mret (M := M) x).
    rewrite M_bind_ret, (get_own _ _ _ _ Hcaused). reflexivity.
  - change (FunctionStyle.annotate (FunctionStyle.err prior VUndefined) type (VObj p fields))
      with (mret (M := M) (VObj ObjectProto
                             (<["error" := VObj ObjectProto
                                             (<["cause" := prior]>
                                                (fields ∪ {["type" := type]}))]>
                                {["ok" := VBool false]}))).
    rewrite M_bind_ret.
    match goal with
    | |- context [get_property (VObj ObjectProto (<["error" := ?x]> ?m)) "error"] =>
        change (get_property (VObj ObjectProto (<["error" := x]> m)) "error")
          with (mret (M := M) x)
    end.
    rewrite M_bind_ret, (get_own _ _ _ _ Hcaused). reflexivity.
Qed.

Lemma payload_type_replaces_the_discriminant_witness :
  (error ← get_property
             (MethodStyle.err (VStr "A") (VObj ObjectProto {["type" := VStr "B"]})) "error";
   get_property error "type") sample_host []
  = (Normal (VStr "B"), []).
Proof.
  exact (proj1 (payload_type_replaces_the_discriminant (VStr "A") (VStr "B") VNull
                  ObjectProto {["type" := VStr "B"]} sample_host [] eq_refl)).
Defined.

(** ** The invariant of the records *)


